(** * Library Management API (b5b4-backend): shallow embedding and checked properties

    The development follows the TypeScript sources:
    - [src/app/utils/formatZodError.ts]          -> Module [Zod] and [formatZodError]
    - [src/app/controllers/books.controller.ts] -> the [booksRoutes_*] handlers
    - [src/server.ts]                           -> Module [Server]
    - [src/app/interfaces/books.interface.ts]   -> Records [IBooks], [IReqQuery]

    The Mongoose model file, the zod schema file and the borrow controller are
    not part of the available sources.  Schemas are taken as an interface
    ([BooksSchema]); the book entity logic, the borrow workflow and the
    aggregation report are modelled from the specification and marked so. *)

From Stdlib Require Import ZArith Ascii String.
From stdpp Require Import base option list sorting strings pretty gmap.

Local Open Scope string_scope.
Local Open Scope list_scope.

(* ===================================================================== *)
(** ** JavaScript values and objects *)
(* ===================================================================== *)

Module Js.

(** The JSON-like values that travel through request bodies, params and
    query strings.  [VUndefined] is what a property read yields when the
    property is absent. *)
#[local] Unset Elimination Schemes.
Inductive value :=
| VUndefined
| VNull
| VBool (b : bool)
| VNum (z : Z)
| VStr (s : string)
| VArr (items : list value)
| VObj (fields : list (string * value)).
#[local] Set Elimination Schemes.

(** [source[key]] on a plain object given by its own properties (inherited
    ones, as [constructor], are no field name of this program). *)
Definition get (o : gmap string value) (k : string) : value :=
  default VUndefined (o !! k).

(** An object that is built up by assignments, as [errors] in
    [formatZodError]: own properties in creation order. *)
Abbreviation object V := (list (string * V)).

(** [o[k] = v] on the list of own properties in creation order: an
    existing property keeps its place and takes the new value, a new
    property goes last.  The list is not the enumeration order: that is
    [values] below, which puts array-index keys first.  (The key
    [__proto__], which no schema of this program has, is not treated
    apart.) *)
Fixpoint set {V} (k : string) (v : V) (o : object V) : object V :=
  match o with
  | [] => [(k, v)]
  | (k', v') :: o' =>
      if decide (k = k') then (k, v) :: o' else (k', v') :: set k v o'
  end.

Fixpoint lookup {V} (k : string) (o : object V) : option V :=
  match o with
  | [] => None
  | (k', v') :: o' => if decide (k = k') then Some v' else lookup k o'
  end.

Definition keys {V} (o : object V) : list string := o.*1.

(** Property keys that are array indices ("0", "17", ... below 2^32-1,
    in canonical decimal form) are enumerated first, in ascending order. *)
Definition digit_of (c : ascii) : option N :=
  let n := N_of_ascii c in
  if ((48 <=? n) && (n <=? 57))%N then Some (n - 48)%N else None.

Fixpoint digits_value (acc : N) (s : string) : option N :=
  match s with
  | EmptyString => Some acc
  | String c s' =>
      match digit_of c with
      | Some d => digits_value (10 * acc + d)%N s'
      | None => None
      end
  end.

Definition array_index (s : string) : option N :=
  match s with
  | EmptyString => None
  | String c s' =>
      if bool_decide (c = "0"%char) && negb (bool_decide (s' = EmptyString))
      then None
      else match digits_value 0 s with
           | Some v => if (v <? 2 ^ 32 - 1)%N then Some v else None
           | None => None
           end
  end.

Definition index_le {V} (a b : N * V) : Prop := (a.1 ≤ b.1)%N.

#[global] Instance index_le_dec {V} (a b : N * V) : Decision (index_le a b).
Proof. unfold index_le. apply _. Defined.

Definition indexed {V} (o : object V) : list (N * V) :=
  omap (λ kv, match array_index kv.1 with
              | Some i => Some (i, kv.2)
              | None => None
              end) o.

Definition named {V} (o : object V) : list V :=
  omap (λ kv, match array_index kv.1 with
              | Some _ => None
              | None => Some kv.2
              end) o.

(** [Object.values(o)] *)
Definition values {V} (o : object V) : list V :=
  (merge_sort index_le (indexed o)).*2 ++ named o.

(** [String.prototype.toUpperCase], on the ASCII letters; other bytes are
    left as they are. *)
Definition upper_ascii (c : ascii) : ascii :=
  let n := nat_of_ascii c in
  if (97 <=? n)%nat && (n <=? 122)%nat then ascii_of_nat (n - 32) else c.

Fixpoint toUpperCase (s : string) : string :=
  match s with
  | EmptyString => EmptyString
  | String c s' => String (upper_ascii c) (toUpperCase s')
  end.

(** Errors thrown and caught: every one is an [Error] with a message. *)
Record Error := { error_message : string }.

End Js.

(* ===================================================================== *)
(** ** zod issues and [formatZodError] *)
(* ===================================================================== *)

Module Zod.

Inductive PathSeg :=
| Key (k : string)
| Index (i : N).

(** A [ZodIssue]; [minimum] and [options] exist only on some issue kinds
    (the source tests ['minimum' in issue] and ['options' in issue]). *)
Record ZodIssue := {
  code : string;
  path : list PathSeg;
  message : string;
  minimum : option Js.value;
  options : option (list Js.value)
}.

Record ZodError := { errors : list ZodIssue }.

Inductive SafeParse (D : Type) :=
| ParseSuccess (data : D)
| ParseFailure (error : ZodError).
Arguments ParseSuccess {D} data.
Arguments ParseFailure {D} error.

(** Using a path segment as a property key turns it into a string; an
    absent segment ([issue.path[0]] of an empty path) is [undefined]. *)
Definition propertyKey (f : option PathSeg) : string :=
  match f with
  | None => "undefined"
  | Some (Key k) => k
  | Some (Index i) => pretty i
  end.

End Zod.

Import Zod.

Record Properties := {
  prop_message : string;
  prop_type : string;
  prop_min : option Js.value;
  prop_enum : option (list Js.value)
}.

Record ValidatorError := {
  ve_message : string;
  ve_name : string;
  ve_properties : Properties;
  ve_kind : string;
  ve_path : option PathSeg;
  ve_value : Js.value
}.

Record ValidationError := {
  name : string;
  field_errors : Js.object ValidatorError
}.

Record ErrorResponse := {
  er_message : string;
  er_success : bool;
  er_error : ValidationError
}.

(** [const field = issue.path[0]] *)
Definition field_of (issue : ZodIssue) : option PathSeg := head (path issue).

(** The object assigned to [errors[field]] in the loop body. *)
Definition entry_of (source : gmap string Js.value) (issue : ZodIssue)
  : ValidatorError :=
  let field := field_of issue in
  let properties :=
    {| prop_message := message issue;
       prop_type := code issue;
       prop_min := minimum issue;
       prop_enum := options issue |} in
  {| ve_message := message issue;
     ve_name := "ValidatorError";
     ve_properties := properties;
     ve_kind := code issue;
     ve_path := field;
     ve_value := Js.get source (propertyKey field) |}.

(** One iteration of [for (const issue of error.errors)]. *)
Definition record_issue (source : gmap string Js.value)
  (errs : Js.object ValidatorError) (issue : ZodIssue)
  : Js.object ValidatorError :=
  Js.set (propertyKey (field_of issue)) (entry_of source issue) errs.

Definition collect_errors (source : gmap string Js.value)
  (issues : list ZodIssue) : Js.object ValidatorError :=
  foldl (record_issue source) [] issues.

Definition formatZodError (error : ZodError) (source : gmap string Js.value)
  : ErrorResponse :=
  let errs := collect_errors source (errors error) in
  let errorMessages :=
    String.concat ", " (ve_message <$> Js.values errs) in
  {| er_message :=
       if bool_decide (errorMessages = "") then "Validation failed"
       else errorMessages;
     er_success := false;
     er_error := {| name := "ValidationError"; field_errors := errs |} |}.

(** [formatZodError(error, source)] for a source that may be [undefined]:
    the first [source[field]] then throws, so the call returns only when
    there is no issue to go through. *)
Definition undefinedSourceError : Js.Error :=
  {| Js.error_message := "Cannot read properties of undefined" |}.

Definition formatZodErrorOn (error : ZodError)
  (source : option (gmap string Js.value)) : Js.Error + ErrorResponse :=
  match source with
  | Some o => inr (formatZodError error o)
  | None =>
      match errors error with
      | [] => inr (formatZodError error ∅)
      | _ :: _ => inl undefinedSourceError
      end
  end.

(** The property an issue is filed under, and the issues filed under a
    given property, in processing order. *)
Definition keyOf (issue : ZodIssue) : string := propertyKey (field_of issue).

Definition issuesOn (k : string) (issues : list ZodIssue) : list ZodIssue :=
  filter (λ i, keyOf i = k) issues.

(* ===================================================================== *)
(** ** Data model ([books.interface.ts]) *)
(* ===================================================================== *)

(** [IBooks].  [genre] ranges over the closed set [GENRES] of the schema
    file; it is stored as its string. *)
Record IBooks := {
  title : string;
  author : string;
  genre : string;
  isbn : string;
  description : string;
  copies : Z;
  available : bool
}.

(** A stored book document: the fields and the identifier given by the
    store. *)
Record BookDoc := {
  _id : string;
  fields : IBooks
}.

Inductive SortOrder := asc | desc.

(** [IReqQuery], with [page] as the controller destructures it.  [limit]
    and [page] are counts; the query schema lets only positive ones through,
    and the statements about the listing assume them at least 1. *)
Record IReqQuery := {
  q_filter : option string;
  q_sortBy : option string;
  q_sort : option SortOrder;
  q_limit : option nat;
  q_page : option nat
}.

(** A borrow record: the referenced book, the quantity and the due date
    (as a time stamp). *)
Record BorrowDoc := {
  borrow_book : string;
  quantity : Z;
  dueDate : Z
}.

(** The body of a partial update ([bookUpdateSchema]): each field is
    optional. *)
Record BookPatch := {
  p_title : option string;
  p_author : option string;
  p_genre : option string;
  p_isbn : option string;
  p_description : option string;
  p_copies : option Z;
  p_available : option bool
}.

(* ===================================================================== *)
(** ** HTTP responses, the store and the handler monad *)
(* ===================================================================== *)

Record Pagination := {
  currentPage : nat;
  totalPages : nat;
  totalBooks : nat;
  pg_limit : nat;
  hasNextPage : bool;
  hasPrevPage : bool
}.

(** The JSON bodies the handlers pass to [res.json]. *)
Inductive Body :=
| BValidation (e : ErrorResponse)
| BMessage (success : bool) (msg : string)
| BBook (success : bool) (msg : string) (data : option BookDoc)
| BBorrow (success : bool) (msg : string) (data : BorrowDoc)
| BBooks (success : bool) (msg : string) (data : list BookDoc)
    (pagination : Pagination)
| BError (success : bool) (msg : string) (error : string).

(** The Express response object: [res.status] stores the code, [res.json]
    sends it with the body.  Only one response can be sent. *)
Record Response := {
  statusCode : nat;
  headersSent : bool;
  sent : list (nat * Body)
}.

Definition freshResponse : Response :=
  {| statusCode := 200; headersSent := false; sent := [] |}.

Record Query := { query_genre : option string }.

Inductive StoreCall :=
| CallCreate (data : IBooks)
| CallFind (q : Query)
| CallCountDocuments (q : Query)
| CallFindById (id : Js.value)
| CallFindOneAndUpdate (id : Js.value) (patch : BookPatch)
| CallUpdateCopies (id : string) (qty : Z)
| CallBorrowCreate (b : BorrowDoc).

(** What a handler runs against: the two collections, whether the store is
    failing ([fault = Some e]: every store call rejects with [e]), the
    response object, every [res.json] call made so far (sent or not), and
    the store calls made so far. *)
Record World := {
  books : list BookDoc;
  borrows : list BorrowDoc;
  fault : option Js.Error;
  res : Response;
  attempts : list (nat * Body);
  storeCalls : list StoreCall
}.

Definition withBooks (bs : list BookDoc) (w : World) : World :=
  {| books := bs; borrows := borrows w; fault := fault w; res := res w;
     attempts := attempts w; storeCalls := storeCalls w |}.

Definition withBorrows (bs : list BorrowDoc) (w : World) : World :=
  {| books := books w; borrows := bs; fault := fault w; res := res w;
     attempts := attempts w; storeCalls := storeCalls w |}.

Definition withRes (r : Response) (w : World) : World :=
  {| books := books w; borrows := borrows w; fault := fault w; res := r;
     attempts := attempts w; storeCalls := storeCalls w |}.

Definition logAttempt (a : nat * Body) (w : World) : World :=
  {| books := books w; borrows := borrows w; fault := fault w; res := res w;
     attempts := attempts w ++ [a]; storeCalls := storeCalls w |}.

Definition logCall (c : StoreCall) (w : World) : World :=
  {| books := books w; borrows := borrows w; fault := fault w; res := res w;
     attempts := attempts w; storeCalls := storeCalls w ++ [c] |}.

(** How a statement list ends: normally, or by a thrown error. *)
Inductive Completion (A : Type) :=
| Normal (a : A)
| Throw (e : Js.Error).
Arguments Normal {A} a.
Arguments Throw {A} e.

Definition M (A : Type) : Type := World → Completion A * World.

#[global] Instance M_ret : MRet M := λ A a w, (Normal a, w).

#[global] Instance M_bind : MBind M := λ A B k m w,
  match m w with
  | (Normal a, w') => k a w'
  | (Throw e, w') => (Throw e, w')
  end.

Definition throw {A} (e : Js.Error) : M A := λ w, (Throw e, w).

(** [res.status(400).json(formatZodError(error, req.body))], outside any
    [try]: an error thrown by [formatZodError] leaves the handler. *)
Definition respondInvalidBody (error : ZodError)
  (source : option (gmap string Js.value)) (send : ErrorResponse → M unit)
  : M unit :=
  match formatZodErrorOn error source with
  | inl e => throw e
  | inr errorResponse => send errorResponse
  end.

(** [try { body } catch (error) { handler }] *)
Definition try_catch {A} (body : M A) (handler : Js.Error → M A) : M A :=
  λ w, match body w with
       | (Normal a, w') => (Normal a, w')
       | (Throw e, w') => handler e w'
       end.

(** [res.status(code)] *)
Definition res_status (code : nat) : M unit := λ w,
  (Normal (),
   withRes {| statusCode := code; headersSent := headersSent (res w);
              sent := sent (res w) |} w).

Definition headersSentError : Js.Error :=
  {| Js.error_message :=
       "Cannot set headers after they are sent to the client" |}.

(** [res.json(body)]: sends the body under the stored status code; on a
    response that has been sent already it throws. *)
Definition res_json (b : Body) : M unit := λ w,
  let w1 := logAttempt (statusCode (res w), b) w in
  if headersSent (res w) then (Throw headersSentError, w1)
  else (Normal (),
        withRes {| statusCode := statusCode (res w); headersSent := true;
                   sent := sent (res w) ++ [(statusCode (res w), b)] |} w1).

(** A store call: logged, rejected when the store is failing, otherwise
    run on the collections. *)
Definition storeCall {A} (c : StoreCall) (op : World → Completion A * World)
  : M A := λ w,
  let w1 := logCall c w in
  match fault w with
  | Some e => (Throw e, w1)
  | None => op w1
  end.

(* ===================================================================== *)
(** ** Interfaces to the parts outside the available sources *)
(* ===================================================================== *)

(** The zod schemas of [schemas/books.schema] (and the one of the borrow
    controller): each maps the raw object to its parsed data or to a
    [ZodError]. *)
Class BooksSchema := {
  bookSchema : option (gmap string Js.value) → SafeParse IBooks;
  bookUpdateSchema : option (gmap string Js.value) → SafeParse BookPatch;
  bookParamsSchema : gmap string Js.value → SafeParse string;
  querySchema : gmap string Js.value → SafeParse IReqQuery;
  borrowSchema : option (gmap string Js.value) → SafeParse BorrowDoc
}.

(** What the database driver decides: the order [sort] puts documents in
    (some rearrangement of them), and the identifier of a new document. *)
Class Driver := {
  sortDocs : string → SortOrder → list BookDoc → list BookDoc;
  sortDocs_perm : ∀ f o l, sortDocs f o l ≡ₚ l;
  newObjectId : list BookDoc → string
}.

(* ===================================================================== *)
(** ** Book entity logic *)
(* ===================================================================== *)

Definition setCopies (c : Z) (b : IBooks) : IBooks :=
  {| title := title b; author := author b; genre := genre b;
     isbn := isbn b; description := description b;
     copies := c; available := (0 <? c)%Z |}.

Definition negativeCopiesError : Js.Error :=
  {| Js.error_message := "copies must be a non-negative integer" |}.

(** Modelled from the spec: the static method
    [updateBookCopiesAndAvailable(book, quantity)] of the missing model file
    (only its signature is in [books.interface.ts]).  It takes [quantity]
    off [copies] and recomputes [available] as [copies > 0]; a negative
    result fails validation and nothing is changed. *)
Definition updateBookCopiesAndAvailable (book : IBooks) (qty : Z)
  : Js.Error + IBooks :=
  let c := (copies book - qty)%Z in
  if (c <? 0)%Z then inl negativeCopiesError else inr (setCopies c book).

(** Modelled from the spec: what a direct update does to a book, with the
    update hook of the missing model file.  Given fields replace the stored
    ones; when [copies] is among them, a negative value fails validation and
    otherwise [available] is recomputed from it, whatever else was given. *)
Definition applyPatch (p : BookPatch) (b : IBooks) : Js.Error + IBooks :=
  let b1 :=
    {| title := default (title b) (p_title p);
       author := default (author b) (p_author p);
       genre := default (genre b) (p_genre p);
       isbn := default (isbn b) (p_isbn p);
       description := default (description b) (p_description p);
       copies := copies b;
       available := default (available b) (p_available p) |} in
  match p_copies p with
  | None => inr b1
  | Some c => if (c <? 0)%Z then inl negativeCopiesError
              else inr (setCopies c b1)
  end.

(** Modelled from the spec: a new book gets [available] from its [copies]
    (the save hook of the missing model file). *)
Definition newBook (data : IBooks) : IBooks := setCopies (copies data) data.

(** The two ways [copies] is changed: set by a direct update, or reduced by
    a borrow.  A change that fails validation leaves the book as it is. *)
Inductive CopiesChange :=
| SetTo (c : Z)
| TakeOff (qty : Z).

Definition copiesPatch (c : Z) : BookPatch :=
  {| p_title := None; p_author := None; p_genre := None; p_isbn := None;
     p_description := None; p_copies := Some c; p_available := None |}.

Definition applyChange (b : IBooks) (m : CopiesChange) : IBooks :=
  match m with
  | SetTo c => match applyPatch (copiesPatch c) b with
               | inr b' => b'
               | inl _ => b
               end
  | TakeOff qty => match updateBookCopiesAndAvailable b qty with
                   | inr b' => b'
                   | inl _ => b
                   end
  end.

(** The invariant of the data model. *)
Definition availableMatchesCopies (b : IBooks) : Prop :=
  available b = bool_decide (0 < copies b)%Z.

(* ===================================================================== *)
(** ** The collections, as the controllers use them *)
(* ===================================================================== *)

Definition Matches (q : Query) (d : BookDoc) : Prop :=
  match query_genre q with
  | None => True
  | Some g => genre (fields d) = g
  end.

#[global] Instance Matches_dec q d : Decision (Matches q d).
Proof. unfold Matches. destruct (query_genre q); apply _. Defined.

Definition findDoc (id : Js.value) (bs : list BookDoc) : option BookDoc :=
  match id with
  | Js.VStr s => head (filter (λ d, _id d = s) bs)
  | _ => None
  end.

Arguments findDoc : simpl never.

(** Replaces the first document carrying [id]. *)
Fixpoint replaceDoc (id : string) (b : IBooks) (bs : list BookDoc)
  : list BookDoc :=
  match bs with
  | [] => []
  | d :: bs' =>
      if decide (_id d = id) then {| _id := id; fields := b |} :: bs'
      else d :: replaceDoc id b bs'
  end.

(** [.limit(n)]: [0] means no limit. *)
Definition limitDocs (n : nat) (l : list BookDoc) : list BookDoc :=
  if decide (n = 0) then l else take n l.

Definition duplicateKeyError : Js.Error :=
  {| Js.error_message := "E11000 duplicate key error" |}.

Section Collections.
Context `{!Driver}.

(** [Book.countDocuments(query)] *)
Definition Book_countDocuments (q : Query) : M nat :=
  storeCall (CallCountDocuments q)
    (λ w, (Normal (length (filter (Matches q) (books w))), w)).

(** [Book.find(query).sort(sortOptions).skip(skip).limit(limit)]; an empty
    [sortOptions] leaves the documents in the order of the collection. *)
Definition Book_find (q : Query) (sortOptions : option (string * SortOrder))
  (skip lim : nat) : M (list BookDoc) :=
  storeCall (CallFind q)
    (λ w,
       let found := filter (Matches q) (books w) in
       let sorted := match sortOptions with
                     | None => found
                     | Some (f, o) => sortDocs f o found
                     end in
       (Normal (limitDocs lim (drop skip sorted)), w)).

(** [Book.findById(id)]: the document or [null]. *)
Definition Book_findById (id : Js.value) : M (option BookDoc) :=
  storeCall (CallFindById id) (λ w, (Normal (findDoc id (books w)), w)).

(** [Book.create(data)]; [isbn] is unique in the collection. *)
Definition Book_create (data : IBooks) : M BookDoc :=
  storeCall (CallCreate data)
    (λ w,
       if bool_decide (isbn data ∈ (isbn ∘ fields) <$> books w)
       then (Throw duplicateKeyError, w)
       else
         let d := {| _id := newObjectId (books w); fields := newBook data |} in
         (Normal d, withBooks (books w ++ [d]) w)).

(** [Book.findOneAndUpdate({_id: id}, patch, {new: true, runValidators: true})] *)
Definition Book_findOneAndUpdate (id : Js.value) (patch : BookPatch)
  : M (option BookDoc) :=
  storeCall (CallFindOneAndUpdate id patch)
    (λ w,
       match findDoc id (books w) with
       | None => (Normal None, w)
       | Some d =>
           match applyPatch patch (fields d) with
           | inl e => (Throw e, w)
           | inr b =>
               (Normal (Some {| _id := _id d; fields := b |}),
                withBooks (replaceDoc (_id d) b (books w)) w)
           end
       end).

(** Modelled from the spec: [Book.updateBookCopiesAndAvailable(book, quantity)]
    applied to a stored book and saved. *)
Definition Book_updateBookCopiesAndAvailable (d : BookDoc) (qty : Z)
  : M unit :=
  storeCall (CallUpdateCopies (_id d) qty)
    (λ w,
       match updateBookCopiesAndAvailable (fields d) qty with
       | inl e => (Throw e, w)
       | inr b => (Normal (), withBooks (replaceDoc (_id d) b (books w)) w)
       end).

(** Modelled from the spec: [Borrow.create(data)] of the missing borrow
    model. *)
Definition Borrow_create (data : BorrowDoc) : M BorrowDoc :=
  storeCall (CallBorrowCreate data)
    (λ w, (Normal data, withBorrows (borrows w ++ [data]) w)).

End Collections.

(* ===================================================================== *)
(** ** The books controller ([books.controller.ts]) *)
(* ===================================================================== *)

(** [req.params] and [req.query] are always objects; [req.body] is
    [undefined] ([None]) when no body was parsed. *)
Record Request := {
  params : gmap string Js.value;
  query : gmap string Js.value;
  body : option (gmap string Js.value)
}.

(** [Math.ceil(a / b)] for counts [a] and a positive [b] (the quotient of
    two such integers is rounded correctly, so the ceiling is the exact
    one). *)
Definition Math_ceil_div (a b : nat) : nat :=
  if decide (a `mod` b = 0) then a `div` b else S (a `div` b).

(** [if (s)] on an optional string: absent and empty are both falsy. *)
Definition truthy (s : option string) : option string :=
  match s with
  | Some EmptyString => None
  | other => other
  end.

Definition errorText (error : Js.Error) : string := Js.error_message error.

Section Controller.
Context `{!BooksSchema} `{!Driver}.

(** [booksRoutes.post("/")] *)
Definition booksRoutes_post (req : Request) : M unit :=
  match bookSchema (body req) with
  | ParseFailure error =>
      respondInvalidBody error (body req)
        (λ errorResponse,
           res_status 400;;
           res_json (BValidation errorResponse))
  | ParseSuccess data =>
      try_catch
        (book ← Book_create data;
         res_status 201;;
         res_json (BBook true "Book created successfully" (Some book)))
        (λ error,
           res_status 500;;
           res_json (BError false "Error creating book" (errorText error)))
  end.

(** [booksRoutes.get("/")].  [limit] and [page] are counts: the model is
    that of the code for [page >= 1] and [limit >= 1] (at [page = 0] the
    code hands the store a negative [skip], which a count cannot show). *)
Definition booksRoutes_get (req : Request) : M unit :=
  try_catch
    (if decide (size (query req) = 0) then
       found ← Book_find {| query_genre := None |} None 0 10;
       total ← Book_countDocuments {| query_genre := None |};
       res_status 200;;
       res_json (BBooks true "Books retrieved successfully" found
                   {| currentPage := 1;
                      totalPages := Math_ceil_div total 10;
                      totalBooks := total;
                      pg_limit := 10;
                      hasNextPage := bool_decide (10 < total);
                      hasPrevPage := false |})
     else
       match querySchema (query req) with
       | ParseFailure error =>
           let errorResponse := formatZodError error (query req) in
           res_status 400;;
           res_json (BValidation errorResponse)
       | ParseSuccess data =>
           let lim := default 10 (q_limit data) in
           let page := default 1 (q_page data) in
           let q := {| query_genre := Js.toUpperCase <$> truthy (q_filter data) |} in
           let sortOptions :=
             (λ sortBy, (sortBy,
                         match q_sort data with
                         | Some desc => desc
                         | _ => asc
                         end)) <$> truthy (q_sortBy data) in
           let skip := (page - 1) * lim in
           total ← Book_countDocuments q;
           let pages := Math_ceil_div total lim in
           found ← Book_find q sortOptions skip lim;
           res_status 200;;
           res_json (BBooks true "Books retrieved successfully" found
                       {| currentPage := page;
                          totalPages := pages;
                          totalBooks := total;
                          pg_limit := lim;
                          hasNextPage := bool_decide (page < pages);
                          hasPrevPage := bool_decide (1 < page) |})
       end)
    (λ error,
       res_status 500;;
       res_json (BError false "Error fetching books" (errorText error))).

(** [booksRoutes.get("/:bookId")].  The [if (!book)] block sends the 404 and
    does not return: control goes on to the statement after it. *)
Definition booksRoutes_get_bookId (req : Request) : M unit :=
  match bookParamsSchema (params req) with
  | ParseFailure error =>
      let errorResponse := formatZodError error (params req) in
      res_status 400;;
      res_json (BValidation errorResponse)
  | ParseSuccess _ =>
      let bookId := Js.get (params req) "bookId" in
      try_catch
        (book ← Book_findById bookId;
         match book with
         | None =>
             res_status 404;;
             res_json (BMessage false "Book not found")
         | Some _ => mret ()
         end;;
         res_status 200;;
         res_json (BBook true "Book retrieved successfully" book))
        (λ error,
           res_status 500;;
           res_json (BError false "Error retrieving book" (errorText error)))
  end.

(** [booksRoutes.put("/:bookId")] *)
Definition booksRoutes_put_bookId (req : Request) : M unit :=
  match bookParamsSchema (params req) with
  | ParseFailure error =>
      let errorResponse := formatZodError error (params req) in
      res_status 400;;
      res_json (BValidation errorResponse)
  | ParseSuccess _ =>
      match bookUpdateSchema (body req) with
      | ParseFailure error =>
          respondInvalidBody error (body req)
            (λ errorResponse,
               res_status 400;;
               res_json (BValidation errorResponse))
      | ParseSuccess data =>
          let bookId := Js.get (params req) "bookId" in
          try_catch
            (updatedBook ← Book_findOneAndUpdate bookId data;
             match updatedBook with
             | None =>
                 res_status 404;;
                 res_json (BMessage false "Book not found")
             | Some _ => mret ()
             end;;
             res_status 200;;
             res_json (BBook true "Book updated successfully" updatedBook))
            (λ error,
               res_status 500;;
               res_json (BError false "Error updating book" (errorText error)))
      end
  end.

(* ===================================================================== *)
(** ** The borrow workflow *)
(* ===================================================================== *)

(** Modelled from the spec: the handler of [POST /api/borrow] in the missing
    borrow controller (spec 4.2 and 6).  The body is validated; the book is
    looked up (404 when absent); a quantity above the book's copies is
    rejected with 400; otherwise the copies are taken off through the
    entity logic, the borrow record is stored and returned with 201.  A
    store failure gives 500. *)
Definition borrowRoutes_post (req : Request) : M unit :=
  match borrowSchema (body req) with
  | ParseFailure error =>
      respondInvalidBody error (body req)
        (λ errorResponse,
           res_status 400;;
           res_json (BValidation errorResponse))
  | ParseSuccess data =>
      try_catch
        (book ← Book_findById (Js.VStr (borrow_book data));
         match book with
         | None =>
             res_status 404;;
             res_json (BMessage false "Book not found")
         | Some b =>
             if bool_decide (copies (fields b) < quantity data)%Z then
               res_status 400;;
               res_json (BMessage false "Insufficient stock")
             else
               Book_updateBookCopiesAndAvailable b (quantity data);;
               borrow ← Borrow_create data;
               res_status 201;;
               res_json (BBorrow true "Book borrowed successfully" borrow)
         end)
        (λ error,
           res_status 500;;
           res_json (BError false "Error borrowing book" (errorText error)))
  end.

End Controller.

(** A request served from scratch: fresh response object, empty logs. *)
Definition serve (handler : Request → M unit) (req : Request)
  (bs : list BookDoc) (brs : list BorrowDoc) (flt : option Js.Error)
  : Completion unit * World :=
  handler req {| books := bs; borrows := brs; fault := flt;
                 res := freshResponse; attempts := []; storeCalls := [] |}.

(* ===================================================================== *)
(** ** The borrowed-books summary *)
(* ===================================================================== *)

Record SummaryRow := {
  bookTitle : string;
  row_isbn : string;
  totalQuantityBorrowed : Z
}.

(** Modelled from the spec: the grouping stage of the aggregation in the
    missing borrow controller (spec 4.3): borrow records are grouped by the
    book they reference and their quantities summed. *)
Definition groupByBook (brs : list BorrowDoc) : gmap string Z :=
  foldr (λ r groups,
           <[borrow_book r := (default 0 (groups !! borrow_book r) + quantity r)%Z]>
             groups)
        ∅ brs.

(** Modelled from the spec: the join of a group with the metadata of its
    book (an inner join: a group without a stored book gives no row). *)
Definition joinBook (bs : list BookDoc) (g : string * Z)
  : option (string * SummaryRow) :=
  d ← findDoc (Js.VStr g.1) bs;
  Some (g.1, {| bookTitle := title (fields d);
                row_isbn := isbn (fields d);
                totalQuantityBorrowed := g.2 |}).

(** Modelled from the spec: the summary, each row with the identifier of
    the book it is about. *)
Definition summaryEntries (bs : list BookDoc) (brs : list BorrowDoc)
  : list (string * SummaryRow) :=
  omap (joinBook bs) (map_to_list (groupByBook brs)).

(** Modelled from the spec: the report of [GET /api/borrow]. *)
Definition borrowedBooksSummary (bs : list BookDoc) (brs : list BorrowDoc)
  : list SummaryRow :=
  (summaryEntries bs brs).*2.

Definition borrowsOf (id : string) (brs : list BorrowDoc) : list BorrowDoc :=
  filter (λ r, borrow_book r = id) brs.

Definition sumQuantity (brs : list BorrowDoc) : Z :=
  foldr (λ r acc, (quantity r + acc)%Z) 0%Z brs.

(* ===================================================================== *)
(** ** Connecting to the database ([server.ts]) *)
(* ===================================================================== *)

Module Server.

(** The module-level flag, and the outcome of every [mongoose.connect]
    invocation so far ([None]: connected, [Some e]: rejected with [e]). *)
Record State := {
  isConnected : bool;
  connects : list (option Js.Error)
}.

Definition initial : State := {| isConnected := false; connects := [] |}.

(** [connectDB()], awaited to its end.  [env k] is how the [k]-th
    invocation of [mongoose.connect] ends. *)
Definition connectDB (env : nat → option Js.Error) (s : State)
  : Completion unit * State :=
  if negb (isConnected s) then
    let outcome := env (length (connects s)) in
    let s1 := {| isConnected := isConnected s;
                 connects := connects s ++ [outcome] |} in
    match outcome with
    | Some e => (Throw e, s1)
    | None => (Normal (), {| isConnected := true; connects := connects s1 |})
    end
  else (Normal (), s).

(** [n] calls of [connectDB], one after the other, whatever each caller
    does with a rejection. *)
Fixpoint callConnectDB (n : nat) (env : nat → option Js.Error) (s : State)
  : State :=
  match n with
  | 0 => s
  | S n' => callConnectDB n' env (connectDB env s).2
  end.

Definition invocations (s : State) : nat := length (connects s).

Definition successes (s : State) : nat :=
  length (filter (λ o, o = None) (connects s)).

(** What holds of every state [connectDB] can reach: the log records what
    the environment decided, a successful invocation is the last one, and
    the flag is set once an invocation has succeeded. *)
Definition consistent (env : nat → option Js.Error) (s : State) : Prop :=
  (∀ i o, connects s !! i = Some o → o = env i)
  ∧ (∀ i, connects s !! i = Some None → S i = length (connects s))
  ∧ (isConnected s = false → ∀ i, connects s !! i ≠ Some None).

(** An environment in which the first connection attempt is rejected and
    the following ones succeed. *)
Definition failsOnce (k : nat) : option Js.Error :=
  match k with
  | 0 => Some {| Js.error_message := "connection refused" |}
  | S _ => None
  end.

End Server.

(* ===================================================================== *)
(** ** Sample instances, to run the handlers on concrete requests *)
(* ===================================================================== *)

Module Sample.

Definition isHex (c : ascii) : bool :=
  let n := nat_of_ascii c in
  (((48 <=? n) && (n <=? 57)) || ((97 <=? n) && (n <=? 102))
   || ((65 <=? n) && (n <=? 70)))%nat.

Fixpoint allHex (s : string) : bool :=
  match s with
  | EmptyString => true
  | String c s' => isHex c && allHex s'
  end.

Definition issue (c : string) (k : string) (m : string) : ZodIssue :=
  {| code := c; path := [Key k]; message := m;
     minimum := None; options := None |}.

(** An identifier is 24 hexadecimal digits. *)
Definition paramsSchema (o : gmap string Js.value) : SafeParse string :=
  match o !! "bookId" with
  | Some (Js.VStr s) =>
      if allHex s && bool_decide (String.length s = 24) then ParseSuccess s
      else ParseFailure {| errors := [issue "custom" "bookId" "Invalid book ID"] |}
  | _ => ParseFailure {| errors := [issue "invalid_type" "bookId" "Required"] |}
  end.

Definition strField (o : gmap string Js.value) (k : string) : option string :=
  match o !! k with
  | Some (Js.VStr s) => Some s
  | _ => None
  end.

Definition numField (o : gmap string Js.value) (k : string) : option Z :=
  match o !! k with
  | Some (Js.VNum z) => Some z
  | _ => None
  end.

Definition bookBodySchema (o : gmap string Js.value) : SafeParse IBooks :=
  match strField o "title", strField o "author", strField o "genre",
        strField o "isbn", numField o "copies" with
  | Some t, Some a, Some g, Some i, Some c =>
      if (c <? 0)%Z then
        ParseFailure {| errors :=
          [{| code := "too_small"; path := [Key "copies"];
              message := "Copies must be a positive number";
              minimum := Some (Js.VNum 0); options := None |}] |}
      else
        ParseSuccess {| title := t; author := a; genre := g; isbn := i;
                        description := default "" (strField o "description");
                        copies := c; available := true |}
  | _, _, _, _, _ =>
      ParseFailure {| errors := [issue "invalid_type" "title" "Required"] |}
  end.

Definition patchSchema (o : gmap string Js.value) : SafeParse BookPatch :=
  match o !! "copies" with
  | Some (Js.VNum c) =>
      ParseSuccess {| p_title := strField o "title";
                      p_author := strField o "author";
                      p_genre := strField o "genre";
                      p_isbn := strField o "isbn";
                      p_description := strField o "description";
                      p_copies := Some c;
                      p_available := None |}
  | Some _ =>
      ParseFailure {| errors := [issue "invalid_type" "copies" "Expected number"] |}
  | None =>
      ParseSuccess {| p_title := strField o "title";
                      p_author := strField o "author";
                      p_genre := strField o "genre";
                      p_isbn := strField o "isbn";
                      p_description := strField o "description";
                      p_copies := None;
                      p_available := None |}
  end.

(** Numbers of the query string: decimal digits, at least 1. *)
Definition countField (o : gmap string Js.value) (k : string)
  : option (option nat) :=
  match o !! k with
  | None => Some None
  | Some (Js.VStr s) =>
      match Js.digits_value 0 s with
      | Some n => if (0 <? n)%N then Some (Some (N.to_nat n)) else None
      | None => None
      end
  | Some _ => None
  end.

Definition listQuerySchema (o : gmap string Js.value) : SafeParse IReqQuery :=
  match countField o "limit", countField o "page" with
  | Some l, Some p =>
      ParseSuccess {| q_filter := strField o "filter";
                      q_sortBy := strField o "sortBy";
                      q_sort := match strField o "sort" with
                                | Some "desc" => Some desc
                                | Some _ => Some asc
                                | None => None
                                end;
                      q_limit := l; q_page := p |}
  | None, _ =>
      ParseFailure {| errors := [issue "too_small" "limit" "Limit must be positive"] |}
  | _, None =>
      ParseFailure {| errors := [issue "too_small" "page" "Page must be positive"] |}
  end.

Definition borrowBodySchema (o : gmap string Js.value) : SafeParse BorrowDoc :=
  match strField o "book", numField o "quantity", numField o "dueDate" with
  | Some b, Some q, Some d =>
      if (q <? 1)%Z then
        ParseFailure {| errors := [issue "too_small" "quantity" "Quantity must be positive"] |}
      else ParseSuccess {| borrow_book := b; quantity := q; dueDate := d |}
  | _, _, _ =>
      ParseFailure {| errors := [issue "invalid_type" "book" "Required"] |}
  end.

(** A body schema on what [req.body] may be: an absent body is refused
    with one issue at the root (empty path). *)
Definition onBody {D} (schema : gmap string Js.value → SafeParse D)
  (b : option (gmap string Js.value)) : SafeParse D :=
  match b with
  | Some o => schema o
  | None =>
      ParseFailure {| errors :=
        [{| code := "invalid_type"; path := []; message := "Required";
            minimum := None; options := None |}] |}
  end.

#[export] Instance schemas : BooksSchema := {|
  bookSchema := onBody bookBodySchema;
  bookUpdateSchema := onBody patchSchema;
  bookParamsSchema := paramsSchema;
  querySchema := listQuerySchema;
  borrowSchema := onBody borrowBodySchema
|}.

(** A driver that keeps the order of the collection for ascending sorts and
    reverses it for descending ones. *)
Definition orderDocs (f : string) (o : SortOrder) (l : list BookDoc)
  : list BookDoc :=
  match o with
  | asc => l
  | desc => reverse l
  end.

Lemma orderDocs_perm f o l : orderDocs f o l ≡ₚ l.
Proof. destruct o; simpl; [done | apply reverse_Permutation]. Qed.

#[export] Instance driver : Driver := {|
  sortDocs := orderDocs;
  sortDocs_perm := orderDocs_perm;
  newObjectId := λ bs, pretty (length bs)
|}.

Definition mkBook (t g i : string) (c : Z) : IBooks :=
  {| title := t; author := "anon"; genre := g; isbn := i;
     description := ""; copies := c; available := (0 <? c)%Z |}.

Definition idA : string := "aaaaaaaaaaaaaaaaaaaaaaaa".
Definition idB : string := "bbbbbbbbbbbbbbbbbbbbbbbb".
Definition idC : string := "cccccccccccccccccccccccc".

Definition docA : BookDoc :=
  {| _id := idA; fields := mkBook "Dune" "SCIENCE" "isbn-a" 5 |}.
Definition docB : BookDoc :=
  {| _id := idB; fields := mkBook "Emma" "FICTION" "isbn-b" 5 |}.

Definition docD : BookDoc :=
  {| _id := "dddddddddddddddddddddddd";
     fields := mkBook "Solaris" "SCIENCE" "isbn-d" 0 |}.

Definition shelf : list BookDoc := [docA; docB; docD].

Definition emptyRequest : Request :=
  {| params := ∅; query := ∅; body := None |}.

Definition byId (id : string) : Request :=
  {| params := {[ "bookId" := Js.VStr id ]}; query := ∅; body := None |}.

(** [POST /api/books] with a negative number of copies. *)
Definition badBookBody : gmap string Js.value :=
  {[ "title" := Js.VStr "Dune"; "author" := Js.VStr "Herbert";
     "genre" := Js.VStr "SCIENCE"; "isbn" := Js.VStr "isbn-x";
     "copies" := Js.VNum (-1) ]}.


(** [POST /api/books] without a parsed body. *)
Definition noBody : Request :=
  {| params := ∅; query := ∅; body := None |}.

Definition rootIssue : ZodIssue :=
  {| code := "invalid_type"; path := []; message := "Required";
     minimum := None; options := None |}.


(** [GET /api/books?filter=science&limit=1&page=2] *)
Definition listing : Request :=
  {| params := ∅;
     query := {[ "filter" := Js.VStr "science"; "limit" := Js.VStr "1";
                 "page" := Js.VStr "2" ]};
     body := None |}.

Definition listingData : IReqQuery :=
  {| q_filter := Some "science"; q_sortBy := None; q_sort := None;
     q_limit := Some 1; q_page := Some 2 |}.

(** [PUT /api/books/aaa...] setting the copies to 0. *)
Definition soldOut : Request :=
  {| params := {[ "bookId" := Js.VStr idA ]}; query := ∅;
     body := Some {[ "copies" := Js.VNum 0 ]} |}.

Definition soldOutPatch : BookPatch :=
  {| p_title := None; p_author := None; p_genre := None; p_isbn := None;
     p_description := None; p_copies := Some 0%Z; p_available := None |}.

(** [POST /api/borrow] asking for [q] copies of the first book. *)
Definition borrowing (q : Z) : Request :=
  {| params := ∅; query := ∅;
     body := Some {[ "book" := Js.VStr idA; "quantity" := Js.VNum q;
                "dueDate" := Js.VNum 100 ]} |}.

Definition borrowOf (id : string) (q : Z) : BorrowDoc :=
  {| borrow_book := id; quantity := q; dueDate := 100 |}.

(** The borrow records of the spec's example: 2 and 3 of one book, 5 of
    another. *)
Definition ledger : list BorrowDoc :=
  [borrowOf idA 2; borrowOf idA 3; borrowOf idB 5].

(** Two issues on the same field, the second on a nested path. *)
Definition twoIssues : ZodError :=
  {| errors :=
       [{| code := "invalid_type"; path := [Key "author"];
           message := "Expected string"; minimum := None; options := None |};
        {| code := "too_small"; path := [Key "author"; Key "name"];
           message := "Too short"; minimum := Some (Js.VNum 1);
           options := None |}] |}.

End Sample.

(* ===================================================================== *)
(** ** The rest of the books controller: [DELETE /api/books/:bookId] *)
(* ===================================================================== *)

(** Removes the first document carrying [id]. *)
Fixpoint removeDoc (id : string) (bs : list BookDoc) : list BookDoc :=
  match bs with
  | [] => []
  | d :: bs' => if decide (_id d = id) then bs' else d :: removeDoc id bs'
  end.

(** Modelled from the spec: the post-delete hook of the missing model file
    (the README's "post hook to delete borrow records when book is
    deleted"): the borrow records of the deleted book go with it. *)
Definition cascadeBorrows (id : string) (brs : list BorrowDoc)
  : list BorrowDoc :=
  filter (λ r, borrow_book r ≠ id) brs.

(** [Book.findOneAndDelete({ _id: id })]: the deleted document or [null].
    (The call log has no entry for this call; what it does shows in the
    collections.) *)
Definition Book_findOneAndDelete (id : Js.value) : M (option BookDoc) :=
  λ w,
    match fault w with
    | Some e => (Throw e, w)
    | None =>
        match findDoc id (books w) with
        | None => (Normal None, w)
        | Some d =>
            (Normal (Some d),
             withBorrows (cascadeBorrows (_id d) (borrows w))
               (withBooks (removeDoc (_id d) (books w)) w))
        end
    end.

Section ControllerDelete.
Context `{!BooksSchema}.

(** [booksRoutes.delete("/:bookId")] *)
Definition booksRoutes_delete_bookId (req : Request) : M unit :=
  match bookParamsSchema (params req) with
  | ParseFailure error =>
      let errorResponse := formatZodError error (params req) in
      res_status 400;;
      res_json (BValidation errorResponse)
  | ParseSuccess _ =>
      let bookId := Js.get (params req) "bookId" in
      try_catch
        (deletedBook ← Book_findOneAndDelete bookId;
         match deletedBook with
         | None =>
             res_status 404;;
             res_json (BMessage false "Book not found")
         | Some _ => mret ()
         end;;
         res_status 200;;
         res_json (BBook true "Book deleted successfully" deletedBook))
        (λ error,
           res_status 500;;
           res_json (BError false "Error deleting book" (errorText error)))
  end.

End ControllerDelete.

(** A handler run in the world another one left: the collections as they
    are now, a fresh response object, empty logs. *)
Definition serveNext (handler : Request → M unit) (req : Request)
  (w : World) : Completion unit * World :=
  serve handler req (books w) (borrows w) (fault w).

(** The books a listing response carries. *)
Definition listedBooks (r : Completion unit * World) : list BookDoc :=
  match sent (res r.2) with
  | [(_, BBooks _ _ found _)] => found
  | _ => []
  end.

(** The same parsed query, asking for page [p]. *)
Definition withPage (p : nat) (data : IReqQuery) : IReqQuery :=
  {| q_filter := q_filter data; q_sortBy := q_sortBy data;
     q_sort := q_sort data; q_limit := q_limit data; q_page := Some p |}.

(** The same parsed query, with another filter. *)
Definition withFilter (f : option string) (data : IReqQuery) : IReqQuery :=
  {| q_filter := f; q_sortBy := q_sortBy data;
     q_sort := q_sort data; q_limit := q_limit data; q_page := q_page data |}.

(** The genre query the listing builds from the parsed data. *)
Definition genreQuery (data : IReqQuery) : Query :=
  {| query_genre := Js.toUpperCase <$> truthy (q_filter data) |}.

(* ===================================================================== *)
(** ** Starting the server ([server.ts], [main]) *)
(* ===================================================================== *)

Module Main.

(** The process as [main] sees it: the connection state, whether the app
    listens, and what went to the console. *)
Record Process := {
  db : Server.State;
  listening : bool;
  console : list string
}.

Definition boot : Process :=
  {| db := Server.initial; listening := false; console := [] |}.

(** [main()]: [port] is [config.port] as it prints.  A rejection of
    [connectDB] is caught and logged. *)
Definition main (env : nat → option Js.Error) (port : string) (p : Process)
  : Completion unit * Process :=
  match Server.connectDB env (db p) with
  | (Normal _, s) =>
      (Normal (),
       {| db := s; listening := true;
          console := console p ++ [String.append "App is listening on port " port] |})
  | (Throw e, s) =>
      (Normal (),
       {| db := s; listening := listening p;
          console := console p ++ [Js.error_message e] |})
  end.

End Main.

(** What [m] sequential calls of [connectDB] have led to: not connected
    means every call invoked [mongoose.connect] and all were rejected;
    connected means one of the first [m] attempts would succeed. *)
Definition reached (env : nat → option Js.Error) (m : nat) (s : Server.State)
  : Prop :=
  (length (Server.connects s) ≤ m)%nat
  ∧ (Server.isConnected s = false →
     length (Server.connects s) = m ∧ ∀ k, (k < m)%nat → env k ≠ None)
  ∧ (Server.isConnected s = true → ∃ k, (k < m)%nat ∧ env k = None).

(* ===================================================================== *)
(** ** More sample requests *)
(* ===================================================================== *)

Module Scenario.

(** A query schema that reads [limit] and [page] as numbers and [filter],
    [sortBy] as strings. *)
Definition natField (o : gmap string Js.value) (k : string) : option nat :=
  match o !! k with
  | Some (Js.VNum z) => Some (Z.to_nat z)
  | _ => None
  end.

Definition plainQuerySchema (o : gmap string Js.value) : SafeParse IReqQuery :=
  ParseSuccess {| q_filter := Sample.strField o "filter";
                  q_sortBy := Sample.strField o "sortBy";
                  q_sort := None;
                  q_limit := Some 2;
                  q_page := natField o "page" |}.

Definition schemas : BooksSchema := {|
  bookSchema := Sample.onBody Sample.bookBodySchema;
  bookUpdateSchema := Sample.onBody Sample.patchSchema;
  bookParamsSchema := Sample.paramsSchema;
  querySchema := plainQuerySchema;
  borrowSchema := Sample.onBody Sample.borrowBodySchema
|}.

Definition pageRequest (p : nat) : Request :=
  {| params := ∅; query := {[ "page" := Js.VNum (Z.of_nat p) ]}; body := None |}.

Definition pageData : IReqQuery :=
  {| q_filter := None; q_sortBy := None; q_sort := None;
     q_limit := Some 2; q_page := None |}.

(** [GET /api/books?limit=x] *)
Definition badLimit : Request :=
  {| params := ∅; query := {[ "limit" := Js.VStr "x" ]}; body := None |}.

(** [GET /api/books?filter=science&limit=1&page=9] and the same with the
    filter in capitals. *)
Definition farPage : Request :=
  {| params := ∅;
     query := {[ "filter" := Js.VStr "science"; "limit" := Js.VStr "1";
                 "page" := Js.VStr "9" ]};
     body := None |}.

Definition farPageData : IReqQuery :=
  {| q_filter := Some "science"; q_sortBy := None; q_sort := None;
     q_limit := Some 1; q_page := Some 9 |}.

Definition shouting : Request :=
  {| params := ∅;
     query := {[ "filter" := Js.VStr "SCIENCE"; "limit" := Js.VStr "1";
                 "page" := Js.VStr "2" ]};
     body := None |}.

(** [GET /api/books?sort=desc] *)
Definition sortOnly : Request :=
  {| params := ∅; query := {[ "sort" := Js.VStr "desc" ]}; body := None |}.

Definition sortOnlyData : IReqQuery :=
  {| q_filter := None; q_sortBy := None; q_sort := Some desc;
     q_limit := None; q_page := None |}.

Definition storeDown : Js.Error :=
  {| Js.error_message := "connection lost" |}.

(** [POST /api/books] with a well-formed book. *)
Definition goodBook : Request :=
  {| params := ∅; query := ∅;
     body := Some {[ "title" := Js.VStr "Ubik"; "author" := Js.VStr "Dick";
                "genre" := Js.VStr "SCIENCE"; "isbn" := Js.VStr "isbn-u";
                "copies" := Js.VNum 2 ]} |}.

Definition goodBookData : IBooks :=
  {| title := "Ubik"; author := "Dick"; genre := "SCIENCE"; isbn := "isbn-u";
     description := ""; copies := 2; available := true |}.

(** A request whose identifier and body are both refused. *)
Definition badBoth : Request :=
  {| params := {[ "bookId" := Js.VStr "42" ]}; query := ∅;
     body := Some {[ "copies" := Js.VStr "many" ]} |}.

Definition oneIssue (k m : string) : ZodError :=
  {| errors := [Sample.issue "invalid_type" k m] |}.

(** One issue on each of two fields. *)
Definition twoFields : ZodError :=
  {| errors := [Sample.issue "invalid_type" "title" "Title is required";
                Sample.issue "too_small" "copies" "Copies must be positive"] |}.

(** A request with an accepted identifier of a stored book and a
    well-formed body. *)
Definition fullRequest : Request :=
  {| params := {[ "bookId" := Js.VStr Sample.idA ]}; query := ∅;
     body := body goodBook |}.

Definition fullPatch : BookPatch :=
  {| p_title := Some "Ubik"; p_author := Some "Dick";
     p_genre := Some "SCIENCE"; p_isbn := Some "isbn-u";
     p_description := None; p_copies := Some 2%Z; p_available := None |}.

(** An update for an identifier no book carries. *)
Definition missingBook : Request :=
  {| params := {[ "bookId" := Js.VStr Sample.idC ]}; query := ∅;
     body := Some {[ "copies" := Js.VNum 0 ]} |}.


End Scenario.

(* ===================================================================== *)
(** * Properties *)
(* ===================================================================== *)

(** ** Objects built by assignment *)

Section ObjectFacts.
Context {V : Type}.
Implicit Types (o : Js.object V) (k : string) (v : V).

Lemma lookup_set_eq k v o : Js.lookup k (Js.set k v o) = Some v.
Proof.
  induction o as [|[k' v'] o IH]; simpl.
  - by rewrite decide_True.
  - destruct (decide (k = k')) as [->|Hne]; simpl.
    + by rewrite decide_True.
    + by rewrite decide_False.
Qed.

Lemma lookup_set_ne k k' v o :
  k ≠ k' → Js.lookup k' (Js.set k v o) = Js.lookup k' o.
Proof.
  intros Hne. induction o as [|[k1 v1] o IH]; simpl.
  - by rewrite decide_False.
  - destruct (decide (k = k1)) as [->|Hk]; simpl.
    + by rewrite !decide_False.
    + destruct (decide (k' = k1)); [done | apply IH].
Qed.

Lemma keys_set k v o :
  Js.keys (Js.set k v o) =
  if decide (k ∈ Js.keys o) then Js.keys o else Js.keys o ++ [k].
Proof.
  unfold Js.keys. induction o as [|[k1 v1] o IH].
  - destruct (decide (k ∈ [].*1)) as [Hin|_]; [|done].
    by apply elem_of_nil in Hin.
  - cbn [Js.set]. destruct (decide (k = k1)) as [->|Hk].
    + destruct (decide (k1 ∈ ((k1, v1) :: o).*1)) as [_|Hn]; [done |].
      destruct Hn. apply list_elem_of_here.
    + cbn [fmap list_fmap fst]. rewrite IH.
      destruct (decide (k ∈ o.*1)) as [Hin|Hin].
      * destruct (decide (k ∈ k1 :: o.*1)) as [_|Hn]; [done |].
        destruct Hn. by apply list_elem_of_further.
      * destruct (decide (k ∈ k1 :: o.*1)) as [Hn|_]; [|done].
        apply elem_of_cons in Hn as [?|?]; done.
Qed.

Lemma NoDup_keys_set k v o :
  NoDup (Js.keys o) → NoDup (Js.keys (Js.set k v o)).
Proof.
  intros Hnd. rewrite keys_set. case_decide; [done |].
  apply NoDup_app. split_and!; [done | | apply NoDup_singleton].
  intros x Hx Hx'. apply list_elem_of_singleton in Hx' as ->. done.
Qed.

Lemma lookup_is_key k o : is_Some (Js.lookup k o) ↔ k ∈ Js.keys o.
Proof.
  unfold Js.keys. induction o as [|[k1 v1] o IH]; simpl.
  - split; [by intros [? ?] | by intros ?%elem_of_nil].
  - destruct (decide (k = k1)) as [->|Hk].
    + split; [intros _; apply list_elem_of_here | by eauto].
    + rewrite IH. split; [by apply list_elem_of_further |].
      intros [?|?]%elem_of_cons; done.
Qed.

Lemma entries_of_absent k o :
  k ∉ Js.keys o → filter (λ kv, kv.1 = k) o = [].
Proof.
  unfold Js.keys. induction o as [|[k1 v1] o IH]; [done |].
  rewrite fmap_cons, not_elem_of_cons. intros [Hne Hk].
  rewrite filter_cons_False by (intros Heq; by apply Hne). by apply IH.
Qed.

(** With distinct keys, the entries under a key are the looked-up one and
    no other. *)
Lemma entries_of_lookup k v o :
  NoDup (Js.keys o) → Js.lookup k o = Some v →
  filter (λ kv, kv.1 = k) o = [(k, v)].
Proof.
  unfold Js.keys. induction o as [|[k1 v1] o IH]; [done |].
  rewrite fmap_cons, NoDup_cons. intros [Hk1 Hnd]. cbn [Js.lookup].
  destruct (decide (k = k1)) as [->|Hk].
  - intros [= ->]. rewrite filter_cons_True by done.
    by rewrite entries_of_absent.
  - intros Hl. rewrite filter_cons_False by (intros Heq; by apply Hk).
    by apply IH.
Qed.

End ObjectFacts.

(** ** [formatZodError] *)

Section FormatFacts.
Variable source : gmap string Js.value.
Implicit Types (issues : list ZodIssue) (acc : Js.object ValidatorError).

Lemma collect_lookup issues acc k :
  Js.lookup k (foldl (record_issue source) acc issues) =
  match last (issuesOn k issues) with
  | Some i => Some (entry_of source i)
  | None => Js.lookup k acc
  end.
Proof.
  revert acc. induction issues as [|i issues IH]; intros acc; simpl; [done |].
  rewrite IH. unfold issuesOn. rewrite filter_cons.
  destruct (decide (keyOf i = k)) as [<-|Hne].
  - rewrite last_cons. destruct (last _); [done |].
    apply lookup_set_eq.
  - destruct (last _); [done |]. by apply lookup_set_ne.
Qed.

Lemma collect_NoDup issues acc :
  NoDup (Js.keys acc) → NoDup (Js.keys (foldl (record_issue source) acc issues)).
Proof.
  revert acc. induction issues as [|i issues IH]; intros acc Hnd; simpl; [done |].
  apply IH. by apply NoDup_keys_set.
Qed.

Lemma collect_keys issues acc k :
  k ∈ Js.keys (foldl (record_issue source) acc issues) ↔
  k ∈ Js.keys acc ∨ ∃ i, i ∈ issues ∧ keyOf i = k.
Proof.
  revert acc. induction issues as [|i issues IH]; intros acc; simpl.
  - split; [by left | intros [?|(i & ?%elem_of_nil & _)]; done].
  - rewrite IH. unfold record_issue. rewrite keys_set.
    fold (keyOf i). split.
    + intros [Hk|(j & Hj & <-)].
      * case_decide; [by left |].
        apply elem_of_app in Hk as [?|Hk]; [by left |].
        apply list_elem_of_singleton in Hk as ->.
        right. exists i. split; [apply list_elem_of_here | done].
      * right. exists j. split; [by apply list_elem_of_further | done].
    + intros [Hk|(j & [->|Hj]%elem_of_cons & <-)].
      * left. case_decide; [done | apply elem_of_app; by left].
      * left. case_decide; [done |]. apply elem_of_app. right.
        by apply list_elem_of_singleton.
      * right. by exists j.
Qed.

End FormatFacts.

(** C10.  [formatZodError] files every issue under the first segment of its
    path only, so an issue on a nested field appears under its top-level
    field; every key of the error map is such a first segment; and a
    top-level field with several issues keeps exactly one entry, the one
    built from the last of them in processing order. *)
Theorem formatZodError_keyed_by_first_segment
  (error : ZodError) (source : gmap string Js.value) (issue : ZodIssue) :
  issue ∈ errors error →
  let errs := field_errors (er_error (formatZodError error source)) in
  let k := propertyKey (head (path issue)) in
  (∀ seg rest, path issue = seg :: rest → k = propertyKey (Some seg))
  ∧ (∃ lastIssue,
       last (issuesOn k (errors error)) = Some lastIssue
       ∧ filter (λ kv, kv.1 = k) errs = [(k, entry_of source lastIssue)])
  ∧ (∀ k', k' ∈ Js.keys errs →
       ∃ i, i ∈ errors error ∧ propertyKey (head (path i)) = k').
Proof.
  intros Hin errs k. split_and!.
  - intros seg rest Hp. subst k. by rewrite Hp.
  - assert (is_Some (last (issuesOn k (errors error)))) as [li Hli].
    { apply last_is_Some. intros Hnil.
      eapply (filter_nil_not_elem_of _ _ issue); [exact Hnil | done | done]. }
    exists li. split; [done |].
    apply entries_of_lookup.
    + apply collect_NoDup. apply NoDup_nil_2.
    + subst errs. simpl. unfold collect_errors.
      by rewrite collect_lookup, Hli.
  - intros k' Hk'. subst errs. simpl in Hk'. unfold collect_errors in Hk'.
    apply collect_keys in Hk' as [?%elem_of_nil|Hk']; done.
Qed.

(** ** The books controller *)

Ltac run_handler :=
  unfold serve, mbind, M_bind, mret, M_ret, try_catch, res_status, res_json,
    storeCall; simpl.

Section ControllerFacts.
Context `{!BooksSchema} `{!Driver}.

(** Under the field of every issue the error map holds an entry with the
    message and kind of an issue on that field, and with the value the
    source has under that field. *)
Lemma formatZodError_reports_field
  (error : ZodError) (source : gmap string Js.value) (issue : ZodIssue) :
  issue ∈ errors error →
  ∃ entry reported,
    Js.lookup (keyOf issue) (field_errors (er_error (formatZodError error source)))
    = Some entry
    ∧ reported ∈ errors error
    ∧ keyOf reported = keyOf issue
    ∧ ve_message entry = message reported
    ∧ ve_kind entry = code reported
    ∧ ve_value entry = Js.get source (keyOf issue).
Proof.
  intros Hin.
  assert (is_Some (last (issuesOn (keyOf issue) (errors error)))) as [li Hli].
  { apply last_is_Some. intros Hnil.
    eapply (filter_nil_not_elem_of _ _ issue); [exact Hnil | done | done]. }
  assert (li ∈ issuesOn (keyOf issue) (errors error)) as Hli'
    by (by apply last_Some_elem_of).
  apply list_elem_of_filter in Hli' as [Hkey Hmem].
  exists (entry_of source li), li.
  split_and!; try done.
  - simpl. unfold collect_errors. by rewrite collect_lookup, Hli.
  - simpl. unfold keyOf in Hkey. by rewrite Hkey.
Qed.




(** C5.  When the params schema rejects the identifier, [GET /api/books/:bookId]
    answers once, with status 400, and returns before any call to the
    store; this holds whether or not the store is failing. *)
Theorem get_bookId_malformed_is_400
  (req : Request) (error : ZodError)
  (bs : list BookDoc) (brs : list BorrowDoc) (flt : option Js.Error) :
  bookParamsSchema (params req) = ParseFailure error →
  let r := serve booksRoutes_get_bookId req bs brs flt in
  r.1 = Normal ()
  ∧ sent (res r.2) = [(400, BValidation (formatZodError error (params req)))]
  ∧ attempts r.2 = sent (res r.2)
  ∧ storeCalls r.2 = []
  ∧ books r.2 = bs.
Proof.
  intros Hparse r. subst r.
  unfold booksRoutes_get_bookId. run_handler. rewrite Hparse. simpl.
  by split_and!.
Qed.

(** What [GET /api/books/:bookId] does for an accepted identifier that no
    stored book carries: after the 404 it goes on to the 200 call, which
    throws because the response is out already; the [catch] block's 500 call
    throws in turn, and the handler ends with that error. *)
Lemma get_bookId_absent
  (req : Request) (id : string) (bs : list BookDoc) (brs : list BorrowDoc) :
  bookParamsSchema (params req) = ParseSuccess id →
  findDoc (Js.get (params req) "bookId") bs = None →
  let r := serve booksRoutes_get_bookId req bs brs None in
  r.1 = Throw headersSentError
  ∧ sent (res r.2) = [(404, BMessage false "Book not found")]
  ∧ attempts r.2 =
      [(404, BMessage false "Book not found");
       (200, BBook true "Book retrieved successfully" None);
       (500, BError false "Error retrieving book"
               "Cannot set headers after they are sent to the client")].
Proof.
  intros Hparse Hfind r. subst r.
  unfold booksRoutes_get_bookId. run_handler. rewrite Hparse. simpl.
  unfold Book_findById. run_handler. rewrite Hfind. simpl.
  by split_and!.
Qed.

(** X19.  For a stored book the same handler answers once, with 200 and
    the book. *)
Lemma get_bookId_present
  (req : Request) (id : string) (d : BookDoc)
  (bs : list BookDoc) (brs : list BorrowDoc) :
  bookParamsSchema (params req) = ParseSuccess id →
  findDoc (Js.get (params req) "bookId") bs = Some d →
  let r := serve booksRoutes_get_bookId req bs brs None in
  r.1 = Normal ()
  ∧ attempts r.2 = [(200, BBook true "Book retrieved successfully" (Some d))]
  ∧ sent (res r.2) = attempts r.2.
Proof.
  intros Hparse Hfind r. subst r.
  unfold booksRoutes_get_bookId. run_handler. rewrite Hparse. simpl.
  unfold Book_findById. run_handler. rewrite Hfind. simpl.
  by split_and!.
Qed.


Lemma Math_ceil_div_le (a b n : nat) :
  (1 ≤ b)%nat → (Math_ceil_div a b ≤ n)%nat ↔ (a ≤ n * b)%nat.
Proof.
  intros Hb. unfold Math_ceil_div.
  pose proof (Nat.div_mod a b ltac:(lia)) as Hdm.
  pose proof (Nat.mod_upper_bound a b ltac:(lia)) as Hlt.
  case_decide; nia.
Qed.

Lemma limitDocs_take (n : nat) (l : list BookDoc) :
  (1 ≤ n)%nat → limitDocs n l = take n l.
Proof. intros Hn. unfold limitDocs. case_decide; [lia | done]. Qed.

(** What [GET /api/books] answers to a query that passes the schema, while
    the store works. *)
Lemma get_list_response
  (req : Request) (data : IReqQuery) (bs : list BookDoc) (brs : list BorrowDoc) :
  size (query req) ≠ 0 →
  querySchema (query req) = ParseSuccess data →
  let lim := default 10 (q_limit data) in
  let page := default 1 (q_page data) in
  let q := {| query_genre := Js.toUpperCase <$> truthy (q_filter data) |} in
  let found := filter (Matches q) bs in
  let sorted := match truthy (q_sortBy data) with
                | None => found
                | Some f => sortDocs f (match q_sort data with
                                        | Some desc => desc
                                        | _ => asc
                                        end) found
                end in
  let total := length found in
  let pages := Math_ceil_div total lim in
  let r := serve booksRoutes_get req bs brs None in
  r.1 = Normal ()
  ∧ sent (res r.2) =
      [(200, BBooks true "Books retrieved successfully"
               (limitDocs lim (drop ((page - 1) * lim) sorted))
               {| currentPage := page; totalPages := pages;
                  totalBooks := total; pg_limit := lim;
                  hasNextPage := bool_decide (page < pages);
                  hasPrevPage := bool_decide (1 < page) |})]
  ∧ books r.2 = bs.
Proof.
  intros Hq Hparse lim page q found sorted total pages r. subst r.
  unfold booksRoutes_get. run_handler.
  rewrite decide_False by done. rewrite Hparse.
  unfold Book_countDocuments, Book_find. run_handler.
  subst sorted. destruct (truthy (q_sortBy data)); simpl; by split_and!.
Qed.

(** C6.  For a query with parameters that passes the schema (limit and page
    at least 1, given or by default 10 and 1), the pagination metadata of
    [GET /api/books] has: [currentPage] the page, [totalBooks] the number of
    stored books matching the filter, [totalPages] the ceiling of
    [totalBooks / limit] (the least [n] with [totalBooks <= n * limit]),
    [hasNextPage] iff [page < totalPages], [hasPrevPage] iff [page > 1]. *)
Theorem get_list_pagination_metadata
  (req : Request) (data : IReqQuery) (bs : list BookDoc) (brs : list BorrowDoc) :
  size (query req) ≠ 0 →
  querySchema (query req) = ParseSuccess data →
  (1 ≤ default 10 (q_limit data))%nat →
  (1 ≤ default 1 (q_page data))%nat →
  let lim := default 10 (q_limit data) in
  let page := default 1 (q_page data) in
  let q := {| query_genre := Js.toUpperCase <$> truthy (q_filter data) |} in
  let r := serve booksRoutes_get req bs brs None in
  ∃ found pg,
    sent (res r.2) =
      [(200, BBooks true "Books retrieved successfully" found pg)]
    ∧ currentPage pg = page
    ∧ totalBooks pg = length (filter (Matches q) bs)
    ∧ (∀ n, (totalPages pg ≤ n)%nat ↔ (totalBooks pg ≤ n * lim)%nat)
    ∧ pg_limit pg = lim
    ∧ hasNextPage pg = bool_decide (page < totalPages pg)
    ∧ hasPrevPage pg = bool_decide (1 < page).
Proof.
  intros Hq Hparse Hlim Hpage lim page q r.
  destruct (get_list_response req data bs brs Hq Hparse) as (_ & Hsent & _).
  eexists _, _. split; [exact Hsent |]. simpl.
  split_and!; try done.
  intros n. by apply Math_ceil_div_le.
Qed.

(** X20.  Without any query parameter the handler answers page 1 of size
    10; its metadata obeys the same equations. *)
Lemma get_list_default_pagination
  (req : Request) (bs : list BookDoc) (brs : list BorrowDoc) :
  size (query req) = 0 →
  let r := serve booksRoutes_get req bs brs None in
  ∃ pg,
    sent (res r.2) =
      [(200, BBooks true "Books retrieved successfully" (take 10 bs) pg)]
    ∧ currentPage pg = 1 ∧ pg_limit pg = 10
    ∧ totalBooks pg = length bs
    ∧ totalPages pg = Math_ceil_div (length bs) 10
    ∧ hasNextPage pg = bool_decide (1 < totalPages pg)
    ∧ hasPrevPage pg = false.
Proof.
  intros Hq r. subst r.
  unfold booksRoutes_get. run_handler. rewrite decide_True by done.
  unfold Book_countDocuments, Book_find. run_handler.
  assert (filter (Matches {| query_genre := None |}) bs = bs) as ->.
  { induction bs as [|d l IH]; [done |].
    rewrite filter_cons_True by done. by rewrite IH. }
  eexists. split; [reflexivity |]. simpl. split_and!; try done.
  apply bool_decide_ext.
  pose proof (Math_ceil_div_le (length bs) 10 1 ltac:(lia)). lia.
Qed.

Lemma upper_ascii_idemp (c : ascii) :
  Js.upper_ascii (Js.upper_ascii c) = Js.upper_ascii c.
Proof. by destruct c as [[] [] [] [] [] [] [] []]. Qed.

Lemma toUpperCase_idemp (s : string) :
  Js.toUpperCase (Js.toUpperCase s) = Js.toUpperCase s.
Proof.
  induction s as [|c s IH]; simpl; [done |].
  by rewrite upper_ascii_idemp, IH.
Qed.

(** C7.  With a genre filter [f], limit [L] and page [P], the listing is
    [take L (drop ((P-1)*L) ordered)], where [ordered] is the stored books
    whose genre is [f] in upper case, in the order asked for (the order of
    the collection when no [sortBy] is given): at most [L] items, the first
    [(P-1)*L] matching records skipped, and every item of the genre [f]
    names, whatever the letter case of [f]. *)
Theorem get_list_filter_page
  (req : Request) (data : IReqQuery) (f : string)
  (bs : list BookDoc) (brs : list BorrowDoc) :
  size (query req) ≠ 0 →
  querySchema (query req) = ParseSuccess data →
  q_filter data = Some f → f ≠ "" →
  (1 ≤ default 10 (q_limit data))%nat →
  (1 ≤ default 1 (q_page data))%nat →
  let L := default 10 (q_limit data) in
  let P := default 1 (q_page data) in
  let matching := filter (λ d, genre (fields d) = Js.toUpperCase f) bs in
  let r := serve booksRoutes_get req bs brs None in
  ∃ ordered found pg,
    sent (res r.2) =
      [(200, BBooks true "Books retrieved successfully" found pg)]
    ∧ ordered ≡ₚ matching
    ∧ (truthy (q_sortBy data) = None → ordered = matching)
    ∧ found = take L (drop ((P - 1) * L) ordered)
    ∧ (length found ≤ L)%nat
    ∧ (∀ d, d ∈ found →
         d ∈ bs
         ∧ genre (fields d) = Js.toUpperCase f
         ∧ Js.toUpperCase (genre (fields d)) = Js.toUpperCase f)
    ∧ totalBooks pg = length matching.
Proof.
  intros Hq Hparse Hf Hne HL HP L P matching r.
  destruct (get_list_response req data bs brs Hq Hparse) as (_ & Hsent & _).
  rewrite Hf in Hsent.
  assert (truthy (Some f) = Some f) as Htr by (by destruct f).
  rewrite Htr in Hsent. simpl in Hsent.
  set (q := {| query_genre := Some (Js.toUpperCase f) |}) in Hsent.
  assert (filter (Matches q) bs = matching) as Hm.
  { subst matching. apply list_filter_iff. intros d. done. }
  rewrite Hm in Hsent. rewrite limitDocs_take in Hsent by done.
  eexists _, _, _. split; [exact Hsent |].
  assert (match truthy (q_sortBy data) with
          | Some f0 => sortDocs f0 match q_sort data with
                                   | Some desc => desc
                                   | _ => asc
                                   end matching
          | None => matching
          end ≡ₚ matching) as Hperm.
  { destruct (truthy (q_sortBy data)); [apply sortDocs_perm | done]. }
  split_and!; try done.
  - by intros ->.
  - rewrite length_take. lia.
  - intros d Hd.
    apply subseteq_take, subseteq_drop in Hd.
    rewrite Hperm in Hd. subst matching.
    apply list_elem_of_filter in Hd as [Hg Hd].
    split_and!; [done | done |]. rewrite Hg. apply toUpperCase_idemp.
Qed.

End ControllerFacts.

(** ** Connecting to the database *)

Section ServerFacts.
Import Server.
Variable env : nat → option Js.Error.

Lemma consistent_initial : consistent env initial.
Proof. split_and!; intros i; simpl; intros; by rewrite lookup_nil in *. Qed.

Lemma connectDB_consistent (s : State) :
  consistent env s → consistent env (connectDB env s).2.
Proof.
  intros (Hlog & Hlast & Hflag). unfold connectDB.
  destruct (isConnected s) eqn:Hc; simpl.
  { split_and!; [done | done |]. by rewrite Hc. }
  assert (∀ i o, (connects s ++ [env (length (connects s))]) !! i = Some o →
                 o = env i ∧
                 (o = None → S i = length (connects s ++ [env (length (connects s))])))
    as Hsnoc.
  { intros i o [[_ Hi]|[-> <-]]%lookup_snoc_Some.
    - split; [by apply Hlog |]. intros ->. by destruct (Hflag eq_refl i).
    - split; [done |]. intros _. rewrite length_app. simpl. lia. }
  destruct (env (length (connects s))) as [e|] eqn:He; simpl.
  - split_and!.
    + intros i o Hi. by apply Hsnoc.
    + intros i Hi. by apply (Hsnoc i None).
    + intros _ i [[_ Hi]|[_ [=]]]%lookup_snoc_Some.
      by destruct (Hflag eq_refl i).
  - split_and!.
    + intros i o Hi. by apply Hsnoc.
    + intros i Hi. by apply (Hsnoc i None).
    + done.
Qed.

Lemma callConnectDB_consistent (n : nat) (s : State) :
  consistent env s → consistent env (callConnectDB n env s).
Proof.
  revert s. induction n as [|n IH]; intros s Hs; simpl; [done |].
  by apply IH, connectDB_consistent.
Qed.

Lemma filter_none {A} (P : A → Prop) `{!∀ x, Decision (P x)} (l : list A) :
  (∀ x, x ∈ l → ¬ P x) → filter P l = [].
Proof.
  induction l as [|x l IH]; intros Hl; [done |].
  rewrite filter_cons_False by (apply Hl, list_elem_of_here).
  apply IH. intros y Hy. by apply Hl, list_elem_of_further.
Qed.

Lemma successes_at_most_one (s : State) :
  (∀ i, connects s !! i = Some None → S i = length (connects s)) →
  (successes s ≤ 1)%nat.
Proof.
  unfold successes. destruct (connects s) as [|o l _] using rev_ind;
    intros Hlast; [simpl; lia |].
  rewrite filter_app, length_app, (filter_none _ l).
  - pose proof (length_filter (λ o, o = None) [o]). simpl in *. lia.
  - intros x [i Hi]%list_elem_of_lookup_1 ->.
    pose proof (lookup_lt_Some _ _ _ Hi) as Hlt.
    specialize (Hlast i). rewrite lookup_app_l, length_app in Hlast by done.
    specialize (Hlast Hi). simpl in Hlast. lia.
Qed.

End ServerFacts.

Section ServerMore.
Import Server.
Variable env : nat → option Js.Error.

Lemma connectDB_reached (m : nat) (s : State) :
  reached env m s → reached env (S m) (connectDB env s).2.
Proof.
  intros (Hlen & Hoff & Hon). unfold connectDB, reached.
  destruct (isConnected s) eqn:Hc; simpl.
  - rewrite Hc. split_and!; [lia | done |].
    intros _. destruct (Hon eq_refl) as (k & Hk & Hek).
    exists k. split; [lia | done].
  - destruct (Hoff eq_refl) as [Hm Hfail].
    destruct (env (length (connects s))) as [e|] eqn:He; simpl;
      rewrite length_app; simpl.
    + split_and!; [lia | | done].
      intros _. split; [lia |].
      intros k Hk. destruct (decide (k = m)) as [->|Hne].
      * rewrite <- Hm, He. done.
      * apply Hfail. lia.
    + split_and!; [lia | done |].
      intros _. exists m. split; [lia |]. by rewrite <- Hm.
Qed.

Lemma callConnectDB_reached (n m : nat) (s : State) :
  reached env m s → reached env (m + n) (callConnectDB n env s).
Proof.
  revert m s. induction n as [|n IH]; intros m s Hs; simpl.
  - by rewrite Nat.add_0_r.
  - replace (m + S n)%nat with (S m + n)%nat by lia.
    by apply IH, connectDB_reached.
Qed.

End ServerMore.

(** C9, as stated, fails: when the first attempt is rejected, the second
    call of [connectDB] invokes [mongoose.connect] again. *)
Lemma connectDB_invoked_twice :
  ¬ (∀ n env,
       (Server.invocations (Server.callConnectDB n env Server.initial) ≤ 1)%nat).
Proof.
  intros H. specialize (H 2 Server.failsOnce). vm_compute in H. lia.
Qed.

(** C9, amended.  Over any number of sequential calls of [connectDB], an
    invocation of [mongoose.connect] that succeeds is the last one there is:
    at most one invocation succeeds and none follows it.  A call made while
    every earlier attempt was rejected invokes [mongoose.connect] again: as
    long as the process is not connected the next call adds an invocation,
    and [n] calls whose attempts are all rejected make [n] invocations.
    When no attempt is rejected, [mongoose.connect] is invoked at most
    once. *)
Theorem connectDB_connects_once (n : nat) (env : nat → option Js.Error) :
  let s := Server.callConnectDB n env Server.initial in
  (Server.successes s ≤ 1)%nat
  ∧ (∀ i, Server.connects s !! i = Some None → S i = Server.invocations s)
  ∧ (Server.isConnected s = false →
     Server.invocations s = n
     ∧ Server.invocations (Server.connectDB env s).2 = S n)
  ∧ ((∀ k, (k < n)%nat → env k ≠ None) → Server.invocations s = n)
  ∧ ((∀ k, env k = None) → (Server.invocations s ≤ 1)%nat).
Proof.
  intros s.
  destruct (callConnectDB_consistent env n Server.initial (consistent_initial env))
    as (Hlog & Hlast & _). fold s in Hlog, Hlast.
  assert (reached env 0 Server.initial) as H0.
  { split_and!; [done | | done]. intros _. split; [done | intros k; lia]. }
  destruct (callConnectDB_reached env n 0 Server.initial H0)
    as (_ & Hoff & Hon). fold s in Hoff, Hon. simpl in Hoff, Hon.
  split_and!.
  - by apply successes_at_most_one.
  - exact Hlast.
  - intros Hc. destruct (Hoff Hc) as [Hn _].
    split; [exact Hn |].
    unfold Server.invocations, Server.connectDB. rewrite Hc. simpl.
    destruct (env (length (Server.connects s))); simpl;
      rewrite length_app; simpl; lia.
  - intros Hfail. destruct (Server.isConnected s) eqn:Hc.
    + destruct (Hon eq_refl) as (k & Hk & Hek). by destruct (Hfail k Hk).
    + by destruct (Hoff eq_refl).
  - intros Hok. unfold Server.invocations.
    destruct (Server.connects s) as [|o l] eqn:Hl; [simpl; lia |].
    assert (o = None) as -> by (rewrite (Hlog 0 o eq_refl); apply Hok).
    specialize (Hlast 0 eq_refl). simpl in *. lia.
Qed.

(** ** Book entity logic and the borrow workflow *)

Lemma setCopies_available (c : Z) (b : IBooks) :
  copies (setCopies c b) = c
  ∧ available (setCopies c b) = bool_decide (0 < copies (setCopies c b))%Z.
Proof.
  split; [done |]. simpl.
  destruct (Z.ltb_spec 0 c); [by rewrite bool_decide_true | by rewrite bool_decide_false by lia].
Qed.

Lemma updateBookCopiesAndAvailable_inr (b b' : IBooks) (qty : Z) :
  updateBookCopiesAndAvailable b qty = inr b' →
  copies b' = (copies b - qty)%Z
  ∧ (0 ≤ copies b')%Z
  ∧ available b' = bool_decide (0 < copies b')%Z.
Proof.
  unfold updateBookCopiesAndAvailable.
  destruct (Z.ltb_spec (copies b - qty) 0); [done |].
  intros [= <-]. split_and!; [done | simpl; lia | apply setCopies_available].
Qed.

Lemma applyPatch_inr (p : BookPatch) (b b' : IBooks) (c : Z) :
  p_copies p = Some c →
  applyPatch p b = inr b' →
  copies b' = c ∧ (0 ≤ c)%Z ∧ available b' = bool_decide (0 < copies b')%Z.
Proof.
  unfold applyPatch. intros ->.
  destruct (Z.ltb_spec c 0); [done |].
  intros [= <-]. split_and!; [done | done | apply setCopies_available].
Qed.

Lemma findDoc_id (s : string) (d : BookDoc) (bs : list BookDoc) :
  findDoc (Js.VStr s) bs = Some d → _id d = s ∧ d ∈ bs.
Proof.
  unfold findDoc. intros Hd. apply head_Some_elem_of in Hd.
  by apply list_elem_of_filter in Hd.
Qed.

Lemma findDoc_replaceDoc (s : string) (b : IBooks) (d : BookDoc)
  (bs : list BookDoc) :
  findDoc (Js.VStr s) bs = Some d →
  findDoc (Js.VStr s) (replaceDoc s b bs) = Some {| _id := s; fields := b |}.
Proof.
  unfold findDoc. induction bs as [|x bs IH]; [done |].
  cbn [replaceDoc]. rewrite filter_cons.
  destruct (decide (_id x = s)) as [Hx|Hx].
  - intros _. by rewrite filter_cons_True.
  - intros Hd. rewrite filter_cons_False by done. by apply IH.
Qed.

Section WorkflowFacts.
Context `{!BooksSchema} `{!Driver}.

(** Every change of [copies], made or refused, leaves a book with
    [available] equal to [copies > 0], over any sequence of changes (down
    to 0 and up again). *)
Lemma applyChange_available (b : IBooks) (m : CopiesChange) :
  availableMatchesCopies b → availableMatchesCopies (applyChange b m).
Proof.
  intros Hb. destruct m as [c|qty]; simpl.
  - destruct (applyPatch (copiesPatch c) b) as [e|b'] eqn:Hp; [done |].
    by destruct (applyPatch_inr (copiesPatch c) _ _ c eq_refl Hp) as (_ & _ & ?).
  - destruct (updateBookCopiesAndAvailable b qty) as [e|b'] eqn:Hu; [done |].
    by destruct (updateBookCopiesAndAvailable_inr _ _ _ Hu) as (_ & _ & ?).
Qed.

Lemma applyChanges_available (b : IBooks) (ms : list CopiesChange) :
  availableMatchesCopies b → availableMatchesCopies (foldl applyChange b ms).
Proof.
  revert b. induction ms as [|m ms IH]; intros b Hb; simpl; [done |].
  by apply IH, applyChange_available.
Qed.

(** C1.  On both paths that change [copies] -- a direct update whose body
    gives [copies] ([PUT /api/books/:bookId]) and a borrow
    ([POST /api/borrow]) -- a change that passes validation stores the book
    with the new [copies] and with [available] equal to [copies > 0], and a
    refused one leaves the collection as it was.  The flag comes from the
    entity logic, not from the caller's data. *)
Theorem copies_change_recomputes_available :
  (∀ (req : Request) (id : string) (patch : BookPatch) (c : Z) (d : BookDoc)
     (bs : list BookDoc) (brs : list BorrowDoc),
     bookParamsSchema (params req) = ParseSuccess id →
     bookUpdateSchema (body req) = ParseSuccess patch →
     p_copies patch = Some c →
     findDoc (Js.get (params req) "bookId") bs = Some d →
     let r := serve booksRoutes_put_bookId req bs brs None in
     ((0 ≤ c)%Z →
      ∃ d', findDoc (Js.VStr (_id d)) (books r.2) = Some d'
            ∧ copies (fields d') = c
            ∧ available (fields d') = bool_decide (0 < copies (fields d'))%Z)
     ∧ ((c < 0)%Z → books r.2 = bs))
  ∧ (∀ (req : Request) (data : BorrowDoc) (d : BookDoc)
       (bs : list BookDoc) (brs : list BorrowDoc),
       borrowSchema (body req) = ParseSuccess data →
       findDoc (Js.VStr (borrow_book data)) bs = Some d →
       let r := serve borrowRoutes_post req bs brs None in
       ((quantity data ≤ copies (fields d))%Z →
        ∃ d', findDoc (Js.VStr (_id d)) (books r.2) = Some d'
              ∧ copies (fields d') = (copies (fields d) - quantity data)%Z
              ∧ available (fields d') = bool_decide (0 < copies (fields d'))%Z)
       ∧ ((copies (fields d) < quantity data)%Z → books r.2 = bs)).
Proof.
  split.
  - intros req id patch c d bs brs Hparams Hbody Hc Hfind r. subst r.
    unfold booksRoutes_put_bookId. run_handler. rewrite Hparams, Hbody.
    unfold Book_findOneAndUpdate. run_handler. rewrite Hfind.
    destruct (Js.get (params req) "bookId") as [| | | |s| |] eqn:Hid;
      try done.
    destruct (findDoc_id _ _ _ Hfind) as [Hs _].
    destruct (applyPatch patch (fields d)) as [e|b'] eqn:Hp; simpl.
    + split; [|done]. intros Hpos. exfalso.
      unfold applyPatch in Hp. rewrite Hc in Hp.
      by destruct (Z.ltb_spec c 0); [lia |].
    + destruct (applyPatch_inr _ _ _ _ Hc Hp) as (Hb' & Hpos & Hav).
      split; [|lia]. intros _.
      exists {| _id := _id d; fields := b' |}. split; [|by split].
      apply (findDoc_replaceDoc _ _ d). by rewrite Hs.
  - intros req data d bs brs Hbody Hfind r. subst r.
    unfold borrowRoutes_post. run_handler. rewrite Hbody.
    unfold Book_findById. run_handler. rewrite Hfind. simpl.
    destruct (findDoc_id _ _ _ Hfind) as [Hs _].
    case_bool_decide as Hq; simpl; [split; [lia | done] |].
    unfold Book_updateBookCopiesAndAvailable. run_handler.
    destruct (updateBookCopiesAndAvailable (fields d) (quantity data))
      as [e|b'] eqn:Hu; simpl.
    + exfalso. unfold updateBookCopiesAndAvailable in Hu.
      by destruct (Z.ltb_spec (copies (fields d) - quantity data) 0); [lia |].
    + destruct (updateBookCopiesAndAvailable_inr _ _ _ Hu) as (Hb' & _ & Hav).
      split; [|lia]. intros _.
      exists {| _id := _id d; fields := b' |}. split; [|by split].
      apply (findDoc_replaceDoc _ _ d). by rewrite Hs.
Qed.

(** C2.  A borrow request that passes validation and asks for more than the
    copies of the book it references gets the one response 400 with the
    insufficient-stock message; no borrow record is created and the books
    (so the copies) stay as they were. *)
Theorem borrow_insufficient_stock
  (req : Request) (data : BorrowDoc) (d : BookDoc)
  (bs : list BookDoc) (brs : list BorrowDoc) :
  borrowSchema (body req) = ParseSuccess data →
  findDoc (Js.VStr (borrow_book data)) bs = Some d →
  (copies (fields d) < quantity data)%Z →
  let r := serve borrowRoutes_post req bs brs None in
  r.1 = Normal ()
  ∧ sent (res r.2) = [(400, BMessage false "Insufficient stock")]
  ∧ attempts r.2 = sent (res r.2)
  ∧ borrows r.2 = brs
  ∧ books r.2 = bs
  ∧ findDoc (Js.VStr (borrow_book data)) (books r.2) = Some d.
Proof.
  intros Hbody Hfind Hq r. subst r.
  unfold borrowRoutes_post. run_handler. rewrite Hbody.
  unfold Book_findById. run_handler. rewrite Hfind. simpl.
  rewrite bool_decide_true by done. simpl. by split_and!.
Qed.

(** With enough copies the same request is answered 201: the borrow record
    is stored and the copies taken off. *)
Lemma borrow_sufficient_stock
  (req : Request) (data : BorrowDoc) (d : BookDoc)
  (bs : list BookDoc) (brs : list BorrowDoc) :
  borrowSchema (body req) = ParseSuccess data →
  findDoc (Js.VStr (borrow_book data)) bs = Some d →
  (quantity data ≤ copies (fields d))%Z →
  let r := serve borrowRoutes_post req bs brs None in
  r.1 = Normal ()
  ∧ sent (res r.2) = [(201, BBorrow true "Book borrowed successfully" data)]
  ∧ borrows r.2 = brs ++ [data]
  ∧ books r.2 =
      replaceDoc (_id d)
        (setCopies (copies (fields d) - quantity data) (fields d)) bs.
Proof.
  intros Hbody Hfind Hq r. subst r.
  unfold borrowRoutes_post. run_handler. rewrite Hbody.
  unfold Book_findById. run_handler. rewrite Hfind. simpl.
  rewrite bool_decide_false by lia. simpl.
  unfold Book_updateBookCopiesAndAvailable, Borrow_create,
    updateBookCopiesAndAvailable. run_handler.
  destruct (Z.ltb_spec (copies (fields d) - quantity data) 0); [lia |].
  simpl. by split_and!.
Qed.

End WorkflowFacts.

(** ** The borrowed-books summary *)

Lemma groupByBook_lookup (brs : list BorrowDoc) (id : string) :
  groupByBook brs !! id =
  match borrowsOf id brs with
  | [] => None
  | rs => Some (sumQuantity rs)
  end.
Proof.
  unfold borrowsOf. induction brs as [|r brs IH]; [done |].
  cbn [groupByBook foldr]. fold (groupByBook brs). rewrite filter_cons.
  destruct (decide (borrow_book r = id)) as [<-|Hne].
  - rewrite lookup_insert_eq, IH. f_equal.
    destruct (filter _ brs); simpl; lia.
  - by rewrite lookup_insert_ne.
Qed.

Lemma joinBook_Some (bs : list BookDoc) (g : string * Z)
  (id : string) (row : SummaryRow) :
  joinBook bs g = Some (id, row) ↔
  g.1 = id
  ∧ ∃ d, findDoc (Js.VStr id) bs = Some d
         ∧ row = {| bookTitle := title (fields d);
                    row_isbn := isbn (fields d);
                    totalQuantityBorrowed := g.2 |}.
Proof.
  unfold joinBook. destruct g as [k t]; simpl. split.
  - destruct (findDoc (Js.VStr k) bs) as [d|] eqn:Hd; simpl; [|done].
    intros [= <- <-]. split; [done |]. by exists d.
  - intros [-> (d & -> & ->)]. done.
Qed.

Lemma joinBook_keys (bs : list BookDoc) (groups : list (string * Z)) :
  (omap (joinBook bs) groups).*1 `sublist_of` groups.*1.
Proof.
  induction groups as [|[k t] groups IH]; [done |].
  cbn [omap list_omap]. unfold joinBook at 1. cbn [fst snd].
  destruct (findDoc (Js.VStr k) bs); simpl.
  - by apply sublist_skip.
  - by apply sublist_cons.
Qed.

(** C3.  The summary has at most one row per book identifier; it has a row
    for an identifier exactly when that identifier is the one of a stored
    book and at least one borrow record references it; and that row carries
    the book's title and isbn and the sum of the quantities of the borrow
    records referencing the book.  The report is these rows. *)
Theorem summary_one_row_per_borrowed_book
  (bs : list BookDoc) (brs : list BorrowDoc) :
  NoDup (summaryEntries bs brs).*1
  ∧ (∀ id row,
       (id, row) ∈ summaryEntries bs brs ↔
       ∃ d, findDoc (Js.VStr id) bs = Some d
            ∧ borrowsOf id brs ≠ []
            ∧ row = {| bookTitle := title (fields d);
                       row_isbn := isbn (fields d);
                       totalQuantityBorrowed := sumQuantity (borrowsOf id brs) |})
  ∧ borrowedBooksSummary bs brs = (summaryEntries bs brs).*2.
Proof.
  split_and!; [| |done].
  - apply (sublist_NoDup _ _ (NoDup_fst_map_to_list (groupByBook brs))).
    apply joinBook_keys.
  - intros id row. unfold summaryEntries. rewrite list_elem_of_omap. split.
    + intros ([k t] & Hin & Hjoin).
      apply elem_of_map_to_list in Hin.
      apply joinBook_Some in Hjoin as [Hk (d & Hd & ->)]. simpl in Hk. subst k.
      rewrite groupByBook_lookup in Hin.
      exists d. destruct (borrowsOf id brs) eqn:Hb; [done |].
      injection Hin as <-. by split_and!.
    + intros (d & Hd & Hb & ->).
      exists (id, sumQuantity (borrowsOf id brs)). split.
      * apply elem_of_map_to_list. rewrite groupByBook_lookup.
        by destruct (borrowsOf id brs).
      * apply joinBook_Some. split; [done |]. by exists d.
Qed.

(** ** More on [formatZodError] *)

Section FormatMore.
Variable source : gmap string Js.value.

Lemma set_fresh {V} (k : string) (v : V) (o : Js.object V) :
  k ∉ Js.keys o → Js.set k v o = o ++ [(k, v)].
Proof.
  unfold Js.keys. induction o as [|[k1 v1] o IH]; [done |].
  rewrite fmap_cons, not_elem_of_cons. intros [Hne Hk]. cbn [Js.set].
  rewrite decide_False by done. simpl. by rewrite IH.
Qed.

Lemma lookup_of_entry {V} (k : string) (v : V) (o : Js.object V) :
  NoDup (Js.keys o) → (k, v) ∈ o → Js.lookup k o = Some v.
Proof.
  unfold Js.keys. induction o as [|[k1 v1] o IH]; [by intros _ ?%elem_of_nil |].
  rewrite fmap_cons, NoDup_cons. intros [Hk1 Hnd] Hin. cbn [Js.lookup].
  apply elem_of_cons in Hin as [[= -> ->]|Hin].
  - by rewrite decide_True.
  - rewrite decide_False; [by apply IH |].
    intros ->. apply Hk1. apply list_elem_of_fmap. by exists (k1, v).
Qed.

Lemma values_of_named {V} (o : Js.object V) :
  Forall (λ kv, Js.array_index kv.1 = None) o → Js.values o = o.*2.
Proof.
  intros Ho. unfold Js.values.
  assert (Js.indexed o = [] ∧ Js.named o = o.*2) as [-> ->]; [|done].
  unfold Js.indexed, Js.named.
  induction Ho as [|[k v] o Hk Ho [IH1 IH2]]; [done |].
  simpl in Hk. cbn [omap list_omap fst snd]. rewrite Hk.
  split; [exact IH1 |]. rewrite fmap_cons. simpl. f_equal. exact IH2.
Qed.

Lemma collect_distinct (issues : list ZodIssue) (acc : Js.object ValidatorError) :
  NoDup (Js.keys acc ++ (keyOf <$> issues)) →
  foldl (record_issue source) acc issues =
  acc ++ ((λ i, (keyOf i, entry_of source i)) <$> issues).
Proof.
  revert acc. induction issues as [|i issues IH]; intros acc Hnd; simpl.
  - by rewrite app_nil_r.
  - unfold record_issue at 2. fold (keyOf i).
    apply NoDup_app in Hnd as (Hacc & Hdisj & Hiss).
    rewrite set_fresh.
    + rewrite IH, <- app_assoc; [done |].
      unfold Js.keys. rewrite fmap_app. simpl.
      rewrite <- app_assoc. simpl.
      apply NoDup_app. split_and!; [done | exact Hdisj | exact Hiss].
    + intros Hin. apply (Hdisj _ Hin). apply list_elem_of_here.
Qed.

(** X1.  Every entry of the error map is built from one of the issues, so
    it is consistent with the key it stands under: its [path] names that
    key, its [value] is what the source has under the key, its [name] is
    ["ValidatorError"], and [kind] and [message] repeat in [properties]. *)
Theorem formatZodError_entries_from_issues
  (error : ZodError) (k : string) (e : ValidatorError) :
  (k, e) ∈ field_errors (er_error (formatZodError error source)) →
  (∃ issue, issue ∈ errors error ∧ keyOf issue = k
            ∧ e = entry_of source issue)
  ∧ propertyKey (ve_path e) = k
  ∧ ve_value e = Js.get source k
  ∧ ve_name e = "ValidatorError"
  ∧ prop_type (ve_properties e) = ve_kind e
  ∧ prop_message (ve_properties e) = ve_message e.
Proof.
  simpl. unfold collect_errors. intros Hin.
  apply lookup_of_entry in Hin; [|apply collect_NoDup, NoDup_nil_2].
  rewrite collect_lookup in Hin.
  destruct (last (issuesOn k (errors error))) as [i|] eqn:Hlast; [|done].
  injection Hin as <-.
  apply last_Some_elem_of, list_elem_of_filter in Hlast as [Hk Hi].
  split_and!; try done.
  - by exists i.
  - simpl. by rewrite <- Hk.
Qed.

(** X2.  When no two issues name the same top-level field and no such
    field is an array index, the error map has one entry per issue, in the
    order of the issues, and [Object.values] enumerates them in that
    order. *)
Theorem formatZodError_one_entry_per_issue (error : ZodError) :
  NoDup (keyOf <$> errors error) →
  Forall (λ i, Js.array_index (keyOf i) = None) (errors error) →
  field_errors (er_error (formatZodError error source)) =
  (λ i, (keyOf i, entry_of source i)) <$> errors error
  ∧ Js.values (field_errors (er_error (formatZodError error source))) =
    entry_of source <$> errors error.
Proof.
  intros Hnd Hnamed. simpl. unfold collect_errors.
  rewrite collect_distinct by done. simpl. split; [done |].
  rewrite values_of_named.
  - by rewrite <- list_fmap_compose.
  - apply Forall_fmap. eapply Forall_impl; [exact Hnamed |]. done.
Qed.

(** X3.  The message of the response is never empty.  Without issues it is
    ["Validation failed"] and the error map is empty; with one issue per
    field (none of them an array index) it is the messages of the issues in
    their order, joined by [", "], unless that is empty. *)
Theorem formatZodError_message (error : ZodError) :
  let r := formatZodError error source in
  er_message r ≠ ""
  ∧ er_success r = false
  ∧ (errors error = [] →
     er_message r = "Validation failed" ∧ field_errors (er_error r) = [])
  ∧ (NoDup (keyOf <$> errors error) →
     Forall (λ i, Js.array_index (keyOf i) = None) (errors error) →
     String.concat ", " (message <$> errors error) ≠ "" →
     er_message r = String.concat ", " (message <$> errors error)).
Proof.
  intros r. split_and!.
  - subst r. simpl. by case_bool_decide.
  - done.
  - intros Hnil. subst r. unfold formatZodError. rewrite Hnil. done.
  - intros Hnd Hnamed Hjoin. subst r. unfold formatZodError.
    cbn [er_message]. unfold collect_errors. rewrite collect_distinct by done.
    simpl. rewrite values_of_named.
    + rewrite <- !list_fmap_compose.
      rewrite bool_decide_false; [done |].
      intros Heq. apply Hjoin. rewrite <- Heq. done.
    + apply Forall_fmap. eapply Forall_impl; [exact Hnamed |]. done.
Qed.

End FormatMore.

(** ** More on the books controller *)

Lemma chunks_cover {A} (n k : nat) (l : list A) :
  concat ((λ p, take n (drop ((p - 1) * n) l)) <$> seq 1 k) = take (k * n) l.
Proof.
  induction k as [|k IH]; [done |].
  rewrite seq_S, fmap_app, concat_app, IH. simpl.
  rewrite app_nil_r, Nat.sub_0_r, take_take_drop. f_equal. lia.
Qed.

Lemma removeDoc_findDoc (s : string) (d : BookDoc) (bs : list BookDoc) :
  findDoc (Js.VStr s) bs = Some d →
  length bs = S (length (removeDoc s bs))
  ∧ (∀ x, x ∈ removeDoc s bs → x ∈ bs)
  ∧ (∀ x, x ∈ bs → _id x ≠ s → x ∈ removeDoc s bs)
  ∧ (NoDup (_id <$> bs) → findDoc (Js.VStr s) (removeDoc s bs) = None).
Proof.
  unfold findDoc. induction bs as [|x bs IH]; [done |].
  cbn [removeDoc]. rewrite filter_cons.
  destruct (decide (_id x = s)) as [Hx|Hx].
  - intros _. split_and!; [done | | |].
    + intros y Hy. by apply list_elem_of_further.
    + intros y [->|Hy]%elem_of_cons Hne; done.
    + rewrite fmap_cons, NoDup_cons. intros [Hnin _].
      apply head_None. apply filter_none. intros y Hy Hid.
      apply Hnin. apply list_elem_of_fmap. exists y. split; [congruence | done].
  - intros Hd. destruct (IH Hd) as (Hlen & Hsub & Hkeep & Hgone).
    split_and!.
    + simpl. by rewrite Hlen.
    + intros y [->|Hy]%elem_of_cons; [apply list_elem_of_here |].
      by apply list_elem_of_further, Hsub.
    + intros y [->|Hy]%elem_of_cons Hne; [apply list_elem_of_here |].
      by apply list_elem_of_further, Hkeep.
    + rewrite fmap_cons, NoDup_cons. intros [_ Hnd].
      rewrite filter_cons_False by done. by apply Hgone.
Qed.

Lemma filter_everything (bs : list BookDoc) :
  filter (Matches {| query_genre := None |}) bs = bs.
Proof.
  induction bs as [|d l IH]; [done |].
  rewrite filter_cons_True by done. by rewrite IH.
Qed.

Lemma truthy_toUpperCase (f1 f2 : string) :
  Js.toUpperCase f1 = Js.toUpperCase f2 →
  Js.toUpperCase <$> truthy (Some f1) = Js.toUpperCase <$> truthy (Some f2).
Proof. destruct f1, f2; simpl; intros Heq; by try rewrite Heq. Qed.

Ltac solve_member :=
  repeat first [apply list_elem_of_here | apply list_elem_of_further].

Section ControllerMore.
Context `{!BooksSchema} `{!Driver}.

(** X4.  A query of [GET /api/books] that the schema refuses gets the one
    response 400 with the error map built from the query; the store is not
    called, whether it works or not. *)
Theorem get_list_invalid_query_is_400
  (req : Request) (error : ZodError)
  (bs : list BookDoc) (brs : list BorrowDoc) (flt : option Js.Error) :
  size (query req) ≠ 0 →
  querySchema (query req) = ParseFailure error →
  let r := serve booksRoutes_get req bs brs flt in
  r.1 = Normal ()
  ∧ sent (res r.2) = [(400, BValidation (formatZodError error (query req)))]
  ∧ attempts r.2 = sent (res r.2)
  ∧ storeCalls r.2 = [].
Proof.
  intros Hq Hparse r. subst r.
  unfold booksRoutes_get. run_handler.
  rewrite decide_False by done. rewrite Hparse. simpl. by split_and!.
Qed.

(** X5.  How much a page holds: [min limit (totalBooks - (page-1)*limit)]
    books, so every page before the last is full and a page past the last
    is empty (still a 200); [hasNextPage] holds exactly when matching books
    remain after this page. *)
Theorem get_list_page_size
  (req : Request) (data : IReqQuery) (bs : list BookDoc) (brs : list BorrowDoc) :
  size (query req) ≠ 0 →
  querySchema (query req) = ParseSuccess data →
  (1 ≤ default 10 (q_limit data))%nat →
  (1 ≤ default 1 (q_page data))%nat →
  let lim := default 10 (q_limit data) in
  let page := default 1 (q_page data) in
  let r := serve booksRoutes_get req bs brs None in
  ∃ found pg,
    sent (res r.2) =
      [(200, BBooks true "Books retrieved successfully" found pg)]
    ∧ length found = (lim `min` (totalBooks pg - (page - 1) * lim))%nat
    ∧ hasNextPage pg = bool_decide (page * lim < totalBooks pg)%nat
    ∧ ((totalPages pg < page)%nat → found = []).
Proof.
  intros Hq Hparse Hlim Hpage lim page r.
  destruct (get_list_response req data bs brs Hq Hparse) as (_ & Hsent & _).
  rewrite limitDocs_take in Hsent by done.
  eexists _, _. split; [exact Hsent |].
  set (found := filter _ bs) in *.
  set (sorted := match truthy (q_sortBy data) with
                 | Some f => _
                 | None => found
                 end).
  assert (length sorted = length found) as Hlen.
  { subst sorted. destruct (truthy (q_sortBy data)); [|done].
    by rewrite sortDocs_perm. }
  pose proof (Math_ceil_div_le (length found) lim) as Hceil.
  cbn [totalBooks hasNextPage totalPages]. split_and!.
  - rewrite length_take, length_drop, Hlen. done.
  - apply bool_decide_ext. fold lim page.
    specialize (Hceil page Hlim). lia.
  - intros Hpast. apply length_zero_iff_nil.
    rewrite length_take, length_drop, Hlen.
    fold lim page in Hpast |- *.
    specialize (Hceil (page - 1)%nat Hlim). lia.
Qed.

(** X6.  Asking for the pages 1, 2, ... up to [totalPages] of one query and
    putting their books together gives every matching book exactly once:
    the matching books in the order asked for. *)
Theorem pages_cover_listing
  (reqs : nat → Request) (data : IReqQuery)
  (bs : list BookDoc) (brs : list BorrowDoc) :
  (1 ≤ default 10 (q_limit data))%nat →
  (∀ p, (1 ≤ p)%nat →
        size (query (reqs p)) ≠ 0
        ∧ querySchema (query (reqs p)) = ParseSuccess (withPage p data)) →
  let matching := filter (Matches (genreQuery data)) bs in
  let pages := Math_ceil_div (length matching) (default 10 (q_limit data)) in
  let all := concat ((λ p, listedBooks (serve booksRoutes_get (reqs p) bs brs None))
                       <$> seq 1 pages) in
  all ≡ₚ matching
  ∧ (truthy (q_sortBy data) = None → all = matching).
Proof.
  intros Hlim Hreqs matching pages all.
  set (lim := default 10 (q_limit data)) in *.
  set (sorted := match truthy (q_sortBy data) with
                 | None => matching
                 | Some f => sortDocs f (match q_sort data with
                                         | Some desc => desc
                                         | _ => asc
                                         end) matching
                 end).
  assert (sorted ≡ₚ matching) as Hperm.
  { subst sorted. destruct (truthy (q_sortBy data)); [apply sortDocs_perm | done]. }
  assert (all = sorted) as ->.
  { subst all.
    transitivity (concat ((λ p, take lim (drop ((p - 1) * lim) sorted))
                            <$> seq 1 pages)).
    - f_equal. apply list_fmap_ext. intros i p Hp.
      apply lookup_seq in Hp as [-> Hi].
      destruct (Hreqs (1 + i)%nat ltac:(lia)) as [Hq Hparse].
      destruct (get_list_response _ _ bs brs Hq Hparse) as (_ & Hsent & _).
      unfold listedBooks. rewrite Hsent. cbn [withPage q_limit q_page default].
      fold lim. rewrite limitDocs_take by done. done.
    - rewrite chunks_cover. apply take_ge.
      rewrite Hperm. subst pages.
      by apply (Math_ceil_div_le (length matching) lim). }
  split; [done |]. intros Hs. subst sorted. by rewrite Hs.
Qed.

(** X7.  For a query with limit and page at least 1: a [sort] direction
    without a usable [sortBy] (absent or empty) has no effect, the books
    come in the order of the collection; an absent or empty [filter]
    selects every book. *)
Theorem get_list_without_sortBy_or_filter
  (req : Request) (data : IReqQuery) (bs : list BookDoc) (brs : list BorrowDoc) :
  size (query req) ≠ 0 →
  querySchema (query req) = ParseSuccess data →
  (1 ≤ default 10 (q_limit data))%nat →
  (1 ≤ default 1 (q_page data))%nat →
  let lim := default 10 (q_limit data) in
  let page := default 1 (q_page data) in
  let r := serve booksRoutes_get req bs brs None in
  ∃ found pg,
    sent (res r.2) =
      [(200, BBooks true "Books retrieved successfully" found pg)]
    ∧ (truthy (q_sortBy data) = None →
       found = take lim (drop ((page - 1) * lim)
                           (filter (Matches (genreQuery data)) bs)))
    ∧ (truthy (q_filter data) = None →
       totalBooks pg = length bs
       ∧ (truthy (q_sortBy data) = None →
          found = take lim (drop ((page - 1) * lim) bs))).
Proof.
  intros Hq Hparse Hlim Hpage lim page r.
  destruct (get_list_response req data bs brs Hq Hparse) as (_ & Hsent & _).
  rewrite limitDocs_take in Hsent by done.
  eexists _, _. split; [exact Hsent |]. split.
  - intros ->. done.
  - intros Hf. rewrite Hf. simpl. rewrite !filter_everything.
    split; [done |]. intros ->. done.
Qed.

(** X8.  The letter case of the filter does not matter: two queries that
    differ only in it get the same response. *)
Theorem get_list_filter_case_insensitive
  (req1 req2 : Request) (data : IReqQuery) (f1 f2 : string)
  (bs : list BookDoc) (brs : list BorrowDoc) :
  size (query req1) ≠ 0 → size (query req2) ≠ 0 →
  querySchema (query req1) = ParseSuccess (withFilter (Some f1) data) →
  querySchema (query req2) = ParseSuccess (withFilter (Some f2) data) →
  Js.toUpperCase f1 = Js.toUpperCase f2 →
  sent (res (serve booksRoutes_get req1 bs brs None).2)
  = sent (res (serve booksRoutes_get req2 bs brs None).2).
Proof.
  intros Hq1 Hq2 Hp1 Hp2 Hup.
  destruct (get_list_response req1 _ bs brs Hq1 Hp1) as (_ & -> & _).
  destruct (get_list_response req2 _ bs brs Hq2 Hp2) as (_ & -> & _).
  cbn [withFilter q_filter q_sortBy q_sort q_limit q_page].
  by rewrite (truthy_toUpperCase f1 f2 Hup).
Qed.

(** X9.  The two GET handlers never change the collections, whatever the
    request and whether the store works or not. *)
Theorem get_never_modifies_store
  (req : Request) (bs : list BookDoc) (brs : list BorrowDoc)
  (flt : option Js.Error) :
  (books (serve booksRoutes_get req bs brs flt).2 = bs
   ∧ borrows (serve booksRoutes_get req bs brs flt).2 = brs)
  ∧ (books (serve booksRoutes_get_bookId req bs brs flt).2 = bs
     ∧ borrows (serve booksRoutes_get_bookId req bs brs flt).2 = brs).
Proof.
  split.
  - unfold booksRoutes_get, Book_find, Book_countDocuments. run_handler.
    destruct (decide (size (query req) = 0)); destruct flt; simpl;
      try done.
    + destruct (querySchema (query req)); simpl; done.
    + destruct (querySchema (query req)); simpl; done.
  - unfold booksRoutes_get_bookId, Book_findById. run_handler.
    destruct (bookParamsSchema (params req)); simpl; [|done].
    destruct flt; simpl; [done |].
    destruct (findDoc _ bs); simpl; done.
Qed.

(** X10.  [GET /api/books] always answers exactly once and returns
    normally, with 200, 400 or 500.  [POST /api/books] does the same, with
    400, 201 or 500 (only a 201 changes the books), in every case but one:
    when no body was parsed and the schema refuses it with some issue,
    [formatZodError] throws outside the [try] and the handler ends with
    that error without any response call. *)
Theorem post_and_list_answer_once
  (req : Request) (bs : list BookDoc) (brs : list BorrowDoc)
  (flt : option Js.Error) :
  (let r := serve booksRoutes_post req bs brs flt in
   let lost := body req = None
               ∧ ∃ error, bookSchema (body req) = ParseFailure error
                          ∧ errors error ≠ [] in
   (lost → r.1 = Throw undefinedSourceError
           ∧ attempts r.2 = [] ∧ books r.2 = bs)
   ∧ (¬ lost →
      r.1 = Normal ()
      ∧ ∃ st b, sent (res r.2) = [(st, b)] ∧ attempts r.2 = [(st, b)]
                ∧ st ∈ [400; 201; 500]
                ∧ (st ≠ 201 → books r.2 = bs)))
  ∧ (let r := serve booksRoutes_get req bs brs flt in
     r.1 = Normal ()
     ∧ ∃ st b, sent (res r.2) = [(st, b)] ∧ attempts r.2 = [(st, b)]
               ∧ st ∈ [200; 400; 500]).
Proof.
  split.
  - unfold booksRoutes_post, Book_create, respondInvalidBody, formatZodErrorOn.
    run_handler.
    destruct (bookSchema (body req)) as [data|error] eqn:Hparse; simpl.
    + split; [by intros (_ & e & [=] & _) |]. intros _.
      destruct flt; simpl.
      * split; [done |]. eexists _, _. split_and!; [done | done | | done].
        solve_member.
      * case_bool_decide; simpl.
        -- split; [done |]. eexists _, _. split_and!; [done | done | | done].
           solve_member.
        -- split; [done |]. eexists _, _. split_and!; [done | done | | done].
           solve_member.
    + destruct (body req) as [o|] eqn:Hbody; simpl.
      * split; [by intros ([=] & _) |]. intros _.
        split; [done |]. eexists _, _. split_and!; [done | done | | done].
        solve_member.
      * destruct (errors error) as [|i l] eqn:Herr; simpl.
        -- split; [intros (_ & e & [= <-] & Hne); by rewrite Herr in Hne |].
           intros _. split; [done |].
           eexists _, _. split_and!; [done | done | | done]. solve_member.
        -- split; [done |]. intros Hnot. destruct Hnot.
           split; [done |]. exists error. split; [done |]. by rewrite Herr.
  - unfold booksRoutes_get, Book_find, Book_countDocuments. run_handler.
    destruct (decide (size (query req) = 0)); destruct flt; simpl;
      try (split; [done |]; eexists _, _; split_and!; [done | done |];
           solve_member).
    + destruct (querySchema (query req)); simpl;
        (split; [done |]; eexists _, _; split_and!; [done | done |];
         solve_member).
    + destruct (querySchema (query req)); simpl;
        (split; [done |]; eexists _, _; split_and!; [done | done |];
         solve_member).
Qed.

(** X11.  [GET /api/books/:bookId] always sends exactly one response, and it
    ends with an uncaught error in one case only: the identifier is
    accepted, the store works and no book carries the identifier. *)
Theorem get_bookId_uncaught_iff
  (req : Request) (bs : list BookDoc) (brs : list BorrowDoc)
  (flt : option Js.Error) :
  let r := serve booksRoutes_get_bookId req bs brs flt in
  length (sent (res r.2)) = 1%nat
  ∧ (r.1 ≠ Normal () ↔
     (∃ id, bookParamsSchema (params req) = ParseSuccess id)
     ∧ flt = None
     ∧ findDoc (Js.get (params req) "bookId") bs = None).
Proof.
  unfold booksRoutes_get_bookId, Book_findById. run_handler.
  destruct (bookParamsSchema (params req)) as [id|error]; simpl.
  - destruct flt as [e|]; simpl.
    + split; [done |]. split; [done | by intros (_ & ? & _)].
    + destruct (findDoc _ bs) as [d|]; simpl.
      * split; [done |]. split; [done | by intros (_ & _ & ?)].
      * split; [done |]. split; [|done]. intros _. split_and!; [|done|done].
        by exists id.
  - split; [done |]. split; [done | by intros ([? ?] & _)].
Qed.

(** X12.  While the store is failing, every handler of the books controller
    that gets as far as the store answers once, with 500, its own message
    and the text of the store's error, and returns normally; the
    collections stay as they were. *)
Theorem store_failure_is_500
  (req : Request) (e : Js.Error) (bs : list BookDoc) (brs : list BorrowDoc) :
  (∀ data, bookSchema (body req) = ParseSuccess data →
     let r := serve booksRoutes_post req bs brs (Some e) in
     r.1 = Normal () ∧ books r.2 = bs
     ∧ sent (res r.2) =
         [(500, BError false "Error creating book" (Js.error_message e))])
  ∧ ((size (query req) = 0
      ∨ ∃ data, querySchema (query req) = ParseSuccess data) →
     let r := serve booksRoutes_get req bs brs (Some e) in
     r.1 = Normal ()
     ∧ sent (res r.2) =
         [(500, BError false "Error fetching books" (Js.error_message e))])
  ∧ (∀ id, bookParamsSchema (params req) = ParseSuccess id →
     (let r := serve booksRoutes_get_bookId req bs brs (Some e) in
      r.1 = Normal ()
      ∧ sent (res r.2) =
          [(500, BError false "Error retrieving book" (Js.error_message e))])
     ∧ (let r := serve booksRoutes_delete_bookId req bs brs (Some e) in
        r.1 = Normal () ∧ books r.2 = bs ∧ borrows r.2 = brs
        ∧ sent (res r.2) =
            [(500, BError false "Error deleting book" (Js.error_message e))])
     ∧ (∀ patch, bookUpdateSchema (body req) = ParseSuccess patch →
        let r := serve booksRoutes_put_bookId req bs brs (Some e) in
        r.1 = Normal () ∧ books r.2 = bs
        ∧ sent (res r.2) =
            [(500, BError false "Error updating book" (Js.error_message e))])).
Proof.
  split_and!.
  - intros data Hparse. unfold booksRoutes_post, Book_create. run_handler.
    by rewrite Hparse.
  - intros Hq. unfold booksRoutes_get, Book_find, Book_countDocuments.
    run_handler. destruct (decide (size (query req) = 0)); simpl; [done |].
    destruct Hq as [?|[data Hparse]]; [done |]. by rewrite Hparse.
  - intros id Hparams. split_and!.
    + unfold booksRoutes_get_bookId, Book_findById. run_handler.
      by rewrite Hparams.
    + unfold booksRoutes_delete_bookId, Book_findOneAndDelete. run_handler.
      by rewrite Hparams.
    + intros patch Hbody.
      unfold booksRoutes_put_bookId, Book_findOneAndUpdate. run_handler.
      by rewrite Hparams, Hbody.
Qed.

(** X13.  In [PUT] and [DELETE /api/books/:bookId] the identifier is checked
    first: when it is refused the one response is the 400 about the
    identifier, whatever the body holds, and the collections are not
    touched. *)
Theorem put_delete_malformed_id
  (req : Request) (error : ZodError)
  (bs : list BookDoc) (brs : list BorrowDoc) (flt : option Js.Error) :
  bookParamsSchema (params req) = ParseFailure error →
  (let r := serve booksRoutes_put_bookId req bs brs flt in
   r.1 = Normal ()
   ∧ sent (res r.2) = [(400, BValidation (formatZodError error (params req)))]
   ∧ storeCalls r.2 = [] ∧ books r.2 = bs)
  ∧ (let r := serve booksRoutes_delete_bookId req bs brs flt in
     r.1 = Normal ()
     ∧ sent (res r.2) = [(400, BValidation (formatZodError error (params req)))]
     ∧ books r.2 = bs ∧ borrows r.2 = brs).
Proof.
  intros Hparams. split.
  - unfold booksRoutes_put_bookId. run_handler. by rewrite Hparams.
  - unfold booksRoutes_delete_bookId. run_handler. by rewrite Hparams.
Qed.

(** X14.  [PUT] and [DELETE] for an accepted identifier that no book
    carries behave as the GET does: the 404 is sent, the handler goes on to
    its 200 call and from there to the 500 call of its [catch] block, both
    refused, and ends with an uncaught error.  The collections stay as they
    were. *)
Theorem put_delete_absent
  (req : Request) (id : string) (bs : list BookDoc) (brs : list BorrowDoc) :
  bookParamsSchema (params req) = ParseSuccess id →
  findDoc (Js.get (params req) "bookId") bs = None →
  (∀ patch, bookUpdateSchema (body req) = ParseSuccess patch →
     let r := serve booksRoutes_put_bookId req bs brs None in
     r.1 = Throw headersSentError
     ∧ sent (res r.2) = [(404, BMessage false "Book not found")]
     ∧ attempts r.2 =
         [(404, BMessage false "Book not found");
          (200, BBook true "Book updated successfully" None);
          (500, BError false "Error updating book"
                  "Cannot set headers after they are sent to the client")]
     ∧ books r.2 = bs)
  ∧ (let r := serve booksRoutes_delete_bookId req bs brs None in
     r.1 = Throw headersSentError
     ∧ sent (res r.2) = [(404, BMessage false "Book not found")]
     ∧ attempts r.2 =
         [(404, BMessage false "Book not found");
          (200, BBook true "Book deleted successfully" None);
          (500, BError false "Error deleting book"
                  "Cannot set headers after they are sent to the client")]
     ∧ books r.2 = bs ∧ borrows r.2 = brs).
Proof.
  intros Hparams Hfind. split.
  - intros patch Hbody.
    unfold booksRoutes_put_bookId. run_handler. rewrite Hparams, Hbody.
    unfold Book_findOneAndUpdate. run_handler. by rewrite Hfind.
  - unfold booksRoutes_delete_bookId. run_handler. rewrite Hparams.
    unfold Book_findOneAndDelete. run_handler. by rewrite Hfind.
Qed.

(** What [DELETE /api/books/:bookId] does for a stored book. *)
Lemma delete_run
  (req : Request) (id : string) (d : BookDoc)
  (bs : list BookDoc) (brs : list BorrowDoc) :
  bookParamsSchema (params req) = ParseSuccess id →
  findDoc (Js.get (params req) "bookId") bs = Some d →
  let r := serve booksRoutes_delete_bookId req bs brs None in
  r.1 = Normal ()
  ∧ sent (res r.2) = [(200, BBook true "Book deleted successfully" (Some d))]
  ∧ attempts r.2 = sent (res r.2)
  ∧ fault r.2 = None
  ∧ ∃ s, Js.get (params req) "bookId" = Js.VStr s
         ∧ books r.2 = removeDoc s bs.
Proof.
  intros Hparams Hfind r. subst r.
  unfold booksRoutes_delete_bookId. run_handler. rewrite Hparams.
  unfold Book_findOneAndDelete. run_handler. rewrite Hfind. simpl.
  destruct (Js.get (params req) "bookId") as [| | | |s| |] eqn:Hid; try done.
  destruct (findDoc_id _ _ _ Hfind) as [Hs _]. rewrite Hs.
  split_and!; try done. by exists s.
Qed.

(** X15.  [DELETE /api/books/:bookId] for a stored book answers once, with
    200 and the deleted document; exactly that document leaves the
    collection, the others stay; with distinct identifiers the book is not
    found afterwards. *)
Theorem delete_present
  (req : Request) (id : string) (d : BookDoc)
  (bs : list BookDoc) (brs : list BorrowDoc) :
  bookParamsSchema (params req) = ParseSuccess id →
  findDoc (Js.get (params req) "bookId") bs = Some d →
  let r := serve booksRoutes_delete_bookId req bs brs None in
  r.1 = Normal ()
  ∧ sent (res r.2) = [(200, BBook true "Book deleted successfully" (Some d))]
  ∧ attempts r.2 = sent (res r.2)
  ∧ length bs = S (length (books r.2))
  ∧ (∀ x, x ∈ books r.2 → x ∈ bs)
  ∧ (∀ x, x ∈ bs → _id x ≠ _id d → x ∈ books r.2)
  ∧ (NoDup (_id <$> bs) →
     findDoc (Js.get (params req) "bookId") (books r.2) = None).
Proof.
  intros Hparams Hfind r.
  destruct (delete_run req id d bs brs Hparams Hfind)
    as (Hret & Hsent & Hatt & _ & s & Hid & Hbooks).
  fold r in Hret, Hsent, Hatt, Hbooks.
  rewrite Hid in Hfind |- *. rewrite Hbooks.
  destruct (findDoc_id _ _ _ Hfind) as [Hs _]. rewrite Hs.
  destruct (removeDoc_findDoc s d bs Hfind) as (Hlen & Hsub & Hkeep & Hgone).
  by split_and!.
Qed.

(** X16.  Delete, then get: after a successful DELETE of a book (distinct
    identifiers), a GET of the same identifier is answered 404. *)
Theorem delete_then_get_is_404
  (req : Request) (id : string) (d : BookDoc)
  (bs : list BookDoc) (brs : list BorrowDoc) :
  NoDup (_id <$> bs) →
  bookParamsSchema (params req) = ParseSuccess id →
  findDoc (Js.get (params req) "bookId") bs = Some d →
  let w := (serve booksRoutes_delete_bookId req bs brs None).2 in
  sent (res (serveNext booksRoutes_get_bookId req w).2)
  = [(404, BMessage false "Book not found")].
Proof.
  intros Hnd Hparams Hfind w.
  destruct (delete_run req id d bs brs Hparams Hfind)
    as (_ & _ & _ & Hflt & s & Hid & Hbooks).
  fold w in Hflt, Hbooks.
  assert (findDoc (Js.get (params req) "bookId") (books w) = None) as Hgone.
  { rewrite Hbooks. rewrite Hid in Hfind |- *.
    by apply (removeDoc_findDoc s d bs Hfind). }
  unfold serveNext. rewrite Hflt.
  by destruct (get_bookId_absent req id (books w) (borrows w) Hparams Hgone)
    as (_ & ? & _).
Qed.

End ControllerMore.

(** ** More on connecting and starting *)


(** X17.  After [n] sequential calls of [connectDB] the process is connected
    exactly when one of the first [n] connection attempts would succeed;
    while it is not, every call has invoked [mongoose.connect].  There are
    never more invocations than calls. *)
Theorem connectDB_connected_iff (n : nat) (env : nat → option Js.Error) :
  let s := Server.callConnectDB n env Server.initial in
  (Server.invocations s ≤ n)%nat
  ∧ (Server.isConnected s = true ↔ ∃ k, (k < n)%nat ∧ env k = None)
  ∧ (Server.isConnected s = false → Server.invocations s = n).
Proof.
  intros s.
  assert (reached env 0 Server.initial) as H0.
  { split_and!; [done | | done]. intros _. split; [done | intros k; lia]. }
  destruct (callConnectDB_reached env n 0 Server.initial H0)
    as (Hlen & Hoff & Hon). fold s in Hlen, Hoff, Hon. simpl in *.
  split_and!; [done | | by intros H; apply Hoff].
  split; [done |]. intros (k & Hk & Hek).
  destruct (Server.isConnected s) eqn:Hc; [done |].
  destruct (Hoff eq_refl) as [_ Hfail]. by destruct (Hfail k Hk).
Qed.

(** X18.  [main] never lets a failed connection escape: it returns normally
    either way.  The app listens exactly when the first connection attempt
    succeeds; when it is rejected the app does not listen and the only
    trace is the error on the console. *)
Theorem main_listens_iff_connected
  (env : nat → option Js.Error) (port : string) :
  let r := Main.main env port Main.boot in
  r.1 = Normal ()
  ∧ (Main.listening r.2 = true ↔ env 0%nat = None)
  ∧ Main.listening r.2 = Server.isConnected (Main.db r.2)
  ∧ (∀ e, env 0%nat = Some e →
       Main.listening r.2 = false
       ∧ Main.console r.2 = [Js.error_message e])
  ∧ (env 0%nat = None →
     Main.console r.2 = [String.append "App is listening on port " port]).
Proof.
  unfold Main.main, Main.boot, Server.connectDB. simpl.
  destruct (env 0%nat) as [e|]; simpl.
  - split_and!; try done. by intros e' [= <-].
  - split_and!; try done.
Qed.

(** ** The properties at concrete requests *)

Import Sample.

Lemma formatZodError_keyed_by_first_segment_witness :
  let nested := {| code := "too_small"; path := [Key "author"; Key "name"];
                   message := "Too short"; minimum := Some (Js.VNum 1);
                   options := None |} in
  nested ∈ errors Sample.twoIssues
  ∧ filter (λ kv, kv.1 = "author")
      (field_errors (er_error (formatZodError Sample.twoIssues ∅)))
    = [("author", entry_of ∅ nested)].
Proof.
  intros nested.
  assert (nested ∈ errors Sample.twoIssues) as Hin
    by (apply list_elem_of_further, list_elem_of_here).
  split; [exact Hin |].
  destruct (formatZodError_keyed_by_first_segment Sample.twoIssues ∅ nested Hin)
    as (_ & (li & Hli & Hentries) & _).
  vm_compute in Hli. injection Hli as <-. exact Hentries.
Defined.



Lemma get_bookId_malformed_is_400_witness :
  let error := {| errors := [Sample.issue "custom" "bookId" "Invalid book ID"] |} in
  bookParamsSchema (params (Sample.byId "42")) = ParseFailure error
  ∧ sent (res (serve booksRoutes_get_bookId (Sample.byId "42") Sample.shelf [] None).2)
    = [(400, BValidation (formatZodError error (params (Sample.byId "42"))))]
  ∧ storeCalls (serve booksRoutes_get_bookId (Sample.byId "42") Sample.shelf [] None).2
    = [].
Proof.
  intros error.
  assert (bookParamsSchema (params (Sample.byId "42")) = ParseFailure error)
    as Hparse by (vm_compute; reflexivity).
  destruct (get_bookId_malformed_is_400 (Sample.byId "42") error
              Sample.shelf [] None Hparse) as (_ & Hsent & _ & Hcalls & _).
  by split_and!.
Defined.

(** C4, at a request for an identifier of the right form that no stored
    book carries: the handler calls [res.json] three times (404, 200, 500),
    only the first is sent, and it ends with the error of the last. *)
Theorem get_bookId_absent_goes_on_after_404 :
  let r := serve booksRoutes_get_bookId (Sample.byId Sample.idC)
             Sample.shelf [] None in
  r.1 = Throw headersSentError
  ∧ sent (res r.2) = [(404, BMessage false "Book not found")]
  ∧ attempts r.2 =
      [(404, BMessage false "Book not found");
       (200, BBook true "Book retrieved successfully" None);
       (500, BError false "Error retrieving book"
               "Cannot set headers after they are sent to the client")].
Proof.
  apply (get_bookId_absent (Sample.byId Sample.idC) Sample.idC Sample.shelf []);
    vm_compute; reflexivity.
Qed.

Lemma get_list_pagination_metadata_witness :
  size (query Sample.listing) ≠ 0
  ∧ querySchema (query Sample.listing) = ParseSuccess Sample.listingData
  ∧ ∃ found pg,
      sent (res (serve booksRoutes_get Sample.listing Sample.shelf [] None).2)
      = [(200, BBooks true "Books retrieved successfully" found pg)]
      ∧ currentPage pg = 2 ∧ totalBooks pg = 2.
Proof.
  assert (size (query Sample.listing) ≠ 0) as Hq by (vm_compute; lia).
  assert (querySchema (query Sample.listing) = ParseSuccess Sample.listingData)
    as Hparse by (vm_compute; reflexivity).
  split_and!; [exact Hq | exact Hparse |].
  destruct (get_list_pagination_metadata Sample.listing Sample.listingData
              Sample.shelf [] Hq Hparse ltac:(simpl; lia) ltac:(simpl; lia))
    as (found & pg & Hsent & Hpage & Htotal & _).
  exists found, pg. split_and!; [exact Hsent | exact Hpage | exact Htotal].
Defined.

Lemma get_list_filter_page_witness :
  size (query Sample.listing) ≠ 0
  ∧ querySchema (query Sample.listing) = ParseSuccess Sample.listingData
  ∧ ∃ found pg,
      sent (res (serve booksRoutes_get Sample.listing Sample.shelf [] None).2)
      = [(200, BBooks true "Books retrieved successfully" found pg)]
      ∧ found = [Sample.docD].
Proof.
  assert (size (query Sample.listing) ≠ 0) as Hq by (vm_compute; lia).
  assert (querySchema (query Sample.listing) = ParseSuccess Sample.listingData)
    as Hparse by (vm_compute; reflexivity).
  split_and!; [exact Hq | exact Hparse |].
  destruct (get_list_filter_page Sample.listing Sample.listingData "science"
              Sample.shelf [] Hq Hparse eq_refl ltac:(discriminate)
              ltac:(simpl; lia) ltac:(simpl; lia))
    as (ordered & found & pg & Hsent & _ & Hord & Hfound & _).
  exists found, pg. split; [exact Hsent |].
  rewrite Hfound, (Hord eq_refl). reflexivity.
Defined.

Lemma copies_change_recomputes_available_witness :
  bookUpdateSchema (body Sample.soldOut) = ParseSuccess Sample.soldOutPatch
  ∧ findDoc (Js.get (params Sample.soldOut) "bookId") Sample.shelf
    = Some Sample.docA
  ∧ (∃ d', findDoc (Js.VStr Sample.idA)
             (books (serve booksRoutes_put_bookId Sample.soldOut
                       Sample.shelf [] None).2) = Some d'
           ∧ copies (fields d') = 0%Z
           ∧ available (fields d') = bool_decide (0 < copies (fields d'))%Z)
  ∧ (∃ d', findDoc (Js.VStr Sample.idA)
             (books (serve borrowRoutes_post (Sample.borrowing 2)
                       Sample.shelf [] None).2) = Some d'
           ∧ copies (fields d') = (5 - 2)%Z
           ∧ available (fields d') = bool_decide (0 < copies (fields d'))%Z).
Proof.
  assert (bookUpdateSchema (body Sample.soldOut) = ParseSuccess Sample.soldOutPatch)
    as Hbody by (vm_compute; reflexivity).
  assert (findDoc (Js.get (params Sample.soldOut) "bookId") Sample.shelf
          = Some Sample.docA) as Hfind by (vm_compute; reflexivity).
  assert (bookParamsSchema (params Sample.soldOut) = ParseSuccess Sample.idA)
    as Hparams by (vm_compute; reflexivity).
  assert (borrowSchema (body (Sample.borrowing 2))
          = ParseSuccess (Sample.borrowOf Sample.idA 2)) as Hborrow
    by (vm_compute; reflexivity).
  assert (findDoc (Js.VStr (borrow_book (Sample.borrowOf Sample.idA 2)))
            Sample.shelf = Some Sample.docA) as Hfind2
    by (vm_compute; reflexivity).
  split_and!; [exact Hbody | exact Hfind | |].
  - exact (proj1 (proj1 copies_change_recomputes_available Sample.soldOut
                    Sample.idA Sample.soldOutPatch 0%Z Sample.docA
                    Sample.shelf [] Hparams Hbody eq_refl Hfind)
             ltac:(lia)).
  - exact (proj1 (proj2 copies_change_recomputes_available (Sample.borrowing 2)
                    (Sample.borrowOf Sample.idA 2) Sample.docA
                    Sample.shelf [] Hborrow Hfind2)
             ltac:(simpl; lia)).
Defined.

Lemma borrow_insufficient_stock_witness :
  borrowSchema (body (Sample.borrowing 6)) = ParseSuccess (Sample.borrowOf Sample.idA 6)
  ∧ findDoc (Js.VStr Sample.idA) Sample.shelf = Some Sample.docA
  ∧ (copies (fields Sample.docA) < 6)%Z
  ∧ sent (res (serve borrowRoutes_post (Sample.borrowing 6) Sample.shelf [] None).2)
    = [(400, BMessage false "Insufficient stock")]
  ∧ borrows (serve borrowRoutes_post (Sample.borrowing 6) Sample.shelf [] None).2
    = []
  ∧ books (serve borrowRoutes_post (Sample.borrowing 6) Sample.shelf [] None).2
    = Sample.shelf.
Proof.
  assert (borrowSchema (body (Sample.borrowing 6))
          = ParseSuccess (Sample.borrowOf Sample.idA 6)) as Hbody
    by (vm_compute; reflexivity).
  assert (findDoc (Js.VStr (borrow_book (Sample.borrowOf Sample.idA 6)))
            Sample.shelf = Some Sample.docA) as Hfind
    by (vm_compute; reflexivity).
  assert (copies (fields Sample.docA) < quantity (Sample.borrowOf Sample.idA 6))%Z
    as Hq by (simpl; lia).
  destruct (borrow_insufficient_stock (Sample.borrowing 6) _ _ Sample.shelf []
              Hbody Hfind Hq) as (_ & Hsent & _ & Hbr & Hbs & _).
  by split_and!.
Defined.

Lemma summary_one_row_per_borrowed_book_witness :
  findDoc (Js.VStr Sample.idA) Sample.shelf = Some Sample.docA
  ∧ Sample.borrowOf Sample.idA 2 ∈ Sample.ledger
  ∧ ("aaaaaaaaaaaaaaaaaaaaaaaa",
     {| bookTitle := "Dune"; row_isbn := "isbn-a"; totalQuantityBorrowed := 5 |})
    ∈ summaryEntries Sample.shelf Sample.ledger.
Proof.
  assert (findDoc (Js.VStr Sample.idA) Sample.shelf = Some Sample.docA) as Hfind
    by (vm_compute; reflexivity).
  split_and!; [exact Hfind | apply list_elem_of_here |].
  apply (proj1 (proj2 (summary_one_row_per_borrowed_book Sample.shelf Sample.ledger))).
  exists Sample.docA. split_and!; [exact Hfind | | ].
  - vm_compute. discriminate.
  - vm_compute. reflexivity.
Defined.

Lemma connectDB_connects_once_witness :
  (∀ k, (λ _ : nat, @None Js.Error) k = None)
  ∧ (Server.invocations
       (Server.callConnectDB 3 (λ _, None) Server.initial) ≤ 1)%nat
  ∧ (∀ k, (k < 1)%nat → Server.failsOnce k ≠ None)
  ∧ Server.isConnected (Server.callConnectDB 1 Server.failsOnce Server.initial)
    = false
  ∧ Server.invocations
      (Server.connectDB Server.failsOnce
         (Server.callConnectDB 1 Server.failsOnce Server.initial)).2 = 2%nat.
Proof.
  assert (∀ k, (k < 1)%nat → Server.failsOnce k ≠ None) as Hfail.
  { intros k Hk. destruct k; [discriminate | lia]. }
  split_and!; [reflexivity | | exact Hfail | reflexivity |].
  - exact (proj2 (proj2 (proj2 (proj2 (connectDB_connects_once 3 (λ _, None)))))
             (λ _, eq_refl)).
  - exact (proj2 (proj1 (proj2 (proj2 (connectDB_connects_once 1
                                          Server.failsOnce))) eq_refl)).
Defined.

(** The spec's example of the summary: borrows of 2 and 3 of one book and 5
    of another give a total of 5 for each, and nothing for the third book. *)
Example summary_of_ledger :
  borrowedBooksSummary Sample.shelf Sample.ledger ≡ₚ
  [{| bookTitle := "Dune"; row_isbn := "isbn-a"; totalQuantityBorrowed := 5 |};
   {| bookTitle := "Emma"; row_isbn := "isbn-b"; totalQuantityBorrowed := 5 |}].
Proof. vm_compute. reflexivity. Qed.

(** A borrow of 5 of 5 copies empties the stock and clears [available]; a
    later update to 3 copies sets it again. *)
Example borrow_all_then_restock :
  let r := serve borrowRoutes_post (borrowing 5) shelf [] None in
  fields <$> findDoc (Js.VStr idA) (books r.2)
  = Some (setCopies 0 (fields docA))
  ∧ available (setCopies 0 (fields docA)) = false
  ∧ applyPatch {| p_title := None; p_author := None; p_genre := None;
                  p_isbn := None; p_description := None;
                  p_copies := Some 3%Z; p_available := Some false |}
       (setCopies 0 (fields docA))
    = inr (setCopies 3 (fields docA))
  ∧ available (setCopies 3 (fields docA)) = true.
Proof. vm_compute. by split_and!. Qed.

(** ** The further properties at concrete requests *)

Ltac decide_goal :=
  match goal with |- ?P => exact (bool_decide_unpack P I) end.

Lemma formatZodError_entries_from_issues_witness :
  let e := entry_of Sample.badBookBody
             (Sample.issue "too_small" "copies" "Copies must be positive") in
  ("copies", e)
    ∈ field_errors (er_error (formatZodError Scenario.twoFields Sample.badBookBody))
  ∧ ve_value e = Js.VNum (-1).
Proof.
  intros e.
  assert (("copies", e) ∈ field_errors
            (er_error (formatZodError Scenario.twoFields Sample.badBookBody)))
    as Hin by (apply list_elem_of_further, list_elem_of_here).
  split; [exact Hin |].
  destruct (formatZodError_entries_from_issues Sample.badBookBody
              Scenario.twoFields "copies" e Hin) as (_ & _ & Hval & _).
  rewrite Hval. vm_compute. reflexivity.
Defined.

Lemma formatZodError_one_entry_per_issue_witness :
  NoDup (keyOf <$> errors Scenario.twoFields)
  ∧ Forall (λ i, Js.array_index (keyOf i) = None) (errors Scenario.twoFields)
  ∧ Js.keys (field_errors (er_error (formatZodError Scenario.twoFields ∅)))
    = ["title"; "copies"].
Proof.
  assert (NoDup (keyOf <$> errors Scenario.twoFields)) as Hnd
    by decide_goal.
  assert (Forall (λ i, Js.array_index (keyOf i) = None)
            (errors Scenario.twoFields)) as Hnamed
    by (repeat constructor).
  split_and!; [exact Hnd | exact Hnamed |].
  rewrite (proj1 (formatZodError_one_entry_per_issue ∅ Scenario.twoFields
                    Hnd Hnamed)).
  reflexivity.
Defined.

Lemma formatZodError_message_witness :
  NoDup (keyOf <$> errors Scenario.twoFields)
  ∧ Forall (λ i, Js.array_index (keyOf i) = None) (errors Scenario.twoFields)
  ∧ er_message (formatZodError Scenario.twoFields ∅)
    = "Title is required, Copies must be positive".
Proof.
  assert (NoDup (keyOf <$> errors Scenario.twoFields)) as Hnd
    by decide_goal.
  assert (Forall (λ i, Js.array_index (keyOf i) = None)
            (errors Scenario.twoFields)) as Hnamed
    by (repeat constructor).
  split_and!; [exact Hnd | exact Hnamed |].
  rewrite (proj2 (proj2 (proj2 (formatZodError_message ∅ Scenario.twoFields)))
             Hnd Hnamed ltac:(vm_compute; discriminate)).
  reflexivity.
Defined.

Lemma get_list_invalid_query_is_400_witness :
  let error := {| errors := [Sample.issue "too_small" "limit"
                               "Limit must be positive"] |} in
  size (query Scenario.badLimit) ≠ 0
  ∧ querySchema (query Scenario.badLimit) = ParseFailure error
  ∧ sent (res (serve booksRoutes_get Scenario.badLimit Sample.shelf []
                 (Some Scenario.storeDown)).2)
    = [(400, BValidation (formatZodError error (query Scenario.badLimit)))].
Proof.
  intros error.
  assert (size (query Scenario.badLimit) ≠ 0) as Hq by (vm_compute; lia).
  assert (querySchema (query Scenario.badLimit) = ParseFailure error) as Hparse
    by (vm_compute; reflexivity).
  split_and!; [exact Hq | exact Hparse |].
  exact (proj1 (proj2 (get_list_invalid_query_is_400 Scenario.badLimit error
                         Sample.shelf [] (Some Scenario.storeDown) Hq Hparse))).
Defined.

Lemma get_list_page_size_witness :
  size (query Scenario.farPage) ≠ 0
  ∧ querySchema (query Scenario.farPage) = ParseSuccess Scenario.farPageData
  ∧ ∃ pg,
      sent (res (serve booksRoutes_get Scenario.farPage Sample.shelf [] None).2)
      = [(200, BBooks true "Books retrieved successfully" [] pg)].
Proof.
  assert (size (query Scenario.farPage) ≠ 0) as Hq by (vm_compute; lia).
  assert (querySchema (query Scenario.farPage) = ParseSuccess Scenario.farPageData)
    as Hparse by (vm_compute; reflexivity).
  split_and!; [exact Hq | exact Hparse |].
  destruct (get_list_page_size Scenario.farPage Scenario.farPageData
              Sample.shelf [] Hq Hparse ltac:(simpl; lia) ltac:(simpl; lia))
    as (found & pg & Hsent & _ & _ & Hpast).
  exists pg. rewrite Hsent.
  assert (totalPages pg = 2%nat) as Hpages.
  { vm_compute in Hsent. by injection Hsent as _ <-. }
  rewrite (Hpast ltac:(rewrite Hpages; simpl; lia)). reflexivity.
Defined.

Lemma pages_cover_listing_witness :
  (∀ p, (1 ≤ p)%nat →
        size (query (Scenario.pageRequest p)) ≠ 0
        ∧ @querySchema Scenario.schemas (query (Scenario.pageRequest p))
          = ParseSuccess (withPage p Scenario.pageData))
  ∧ listedBooks (serve (@booksRoutes_get Scenario.schemas Sample.driver)
                   (Scenario.pageRequest 1) Sample.shelf [] None)
    ++ listedBooks (serve (@booksRoutes_get Scenario.schemas Sample.driver)
                      (Scenario.pageRequest 2) Sample.shelf [] None)
    = Sample.shelf.
Proof.
  assert (∀ p, (1 ≤ p)%nat →
            size (query (Scenario.pageRequest p)) ≠ 0
            ∧ @querySchema Scenario.schemas (query (Scenario.pageRequest p))
              = ParseSuccess (withPage p Scenario.pageData)) as Hreqs.
  { intros p _. split.
    - simpl. rewrite map_size_singleton. lia.
    - simpl. unfold Scenario.plainQuerySchema, Scenario.natField,
        Sample.strField, withPage. simpl.
      rewrite lookup_singleton_eq, !lookup_singleton_ne by done.
      by rewrite Nat2Z.id. }
  split; [exact Hreqs |].
  pose proof (proj2 (@pages_cover_listing Scenario.schemas Sample.driver
                       Scenario.pageRequest Scenario.pageData Sample.shelf []
                       ltac:(simpl; lia) Hreqs) eq_refl) as Hall.
  simpl in Hall. rewrite app_nil_r in Hall. exact Hall.
Defined.

Lemma get_list_without_sortBy_or_filter_witness :
  size (query Scenario.sortOnly) ≠ 0
  ∧ querySchema (query Scenario.sortOnly) = ParseSuccess Scenario.sortOnlyData
  ∧ ∃ pg,
      sent (res (serve booksRoutes_get Scenario.sortOnly Sample.shelf [] None).2)
      = [(200, BBooks true "Books retrieved successfully" Sample.shelf pg)].
Proof.
  assert (size (query Scenario.sortOnly) ≠ 0) as Hq by (vm_compute; lia).
  assert (querySchema (query Scenario.sortOnly) = ParseSuccess Scenario.sortOnlyData)
    as Hparse by (vm_compute; reflexivity).
  split_and!; [exact Hq | exact Hparse |].
  destruct (get_list_without_sortBy_or_filter Scenario.sortOnly
              Scenario.sortOnlyData Sample.shelf [] Hq Hparse
              ltac:(simpl; lia) ltac:(simpl; lia))
    as (found & pg & Hsent & _ & Hall).
  exists pg. rewrite Hsent.
  rewrite (proj2 (Hall eq_refl) eq_refl). reflexivity.
Defined.

Lemma get_list_filter_case_insensitive_witness :
  querySchema (query Sample.listing)
  = ParseSuccess (withFilter (Some "science") Sample.listingData)
  ∧ querySchema (query Scenario.shouting)
    = ParseSuccess (withFilter (Some "SCIENCE") Sample.listingData)
  ∧ Js.toUpperCase "science" = Js.toUpperCase "SCIENCE"
  ∧ sent (res (serve booksRoutes_get Sample.listing Sample.shelf [] None).2)
    = sent (res (serve booksRoutes_get Scenario.shouting Sample.shelf [] None).2).
Proof.
  assert (querySchema (query Sample.listing)
          = ParseSuccess (withFilter (Some "science") Sample.listingData)) as H1
    by (vm_compute; reflexivity).
  assert (querySchema (query Scenario.shouting)
          = ParseSuccess (withFilter (Some "SCIENCE") Sample.listingData)) as H2
    by (vm_compute; reflexivity).
  assert (Js.toUpperCase "science" = Js.toUpperCase "SCIENCE") as Hup
    by (vm_compute; reflexivity).
  split_and!; [exact H1 | exact H2 | exact Hup |].
  exact (get_list_filter_case_insensitive Sample.listing Scenario.shouting
           Sample.listingData "science" "SCIENCE" Sample.shelf []
           ltac:(vm_compute; lia) ltac:(vm_compute; lia) H1 H2 Hup).
Defined.

Lemma post_and_list_answer_once_witness :
  body Sample.noBody = None
  ∧ bookSchema (body Sample.noBody) = ParseFailure {| errors := [Sample.rootIssue] |}
  ∧ (serve booksRoutes_post Sample.noBody Sample.shelf [] None).1
    = Throw undefinedSourceError
  ∧ ∃ st b,
      sent (res (serve booksRoutes_post Scenario.goodBook Sample.shelf [] None).2)
      = [(st, b)]
      ∧ st ∈ [400; 201; 500].
Proof.
  assert (bookSchema (body Sample.noBody)
          = ParseFailure {| errors := [Sample.rootIssue] |}) as Hparse
    by reflexivity.
  split_and!; [reflexivity | exact Hparse | |].
  - apply (proj1 (proj1 (post_and_list_answer_once Sample.noBody Sample.shelf
                           [] None))).
    split; [reflexivity |]. eexists. split; [exact Hparse | discriminate].
  - destruct (proj2 (proj1 (post_and_list_answer_once Scenario.goodBook
                              Sample.shelf [] None)))
      as (_ & st & b & Hsent & _ & Hst & _).
    + intros [Hnone _]. discriminate Hnone.
    + by exists st, b.
Defined.

Lemma get_bookId_uncaught_iff_witness :
  bookParamsSchema (params (Sample.byId Sample.idC)) = ParseSuccess Sample.idC
  ∧ findDoc (Js.get (params (Sample.byId Sample.idC)) "bookId") Sample.shelf
    = None
  ∧ (serve booksRoutes_get_bookId (Sample.byId Sample.idC) Sample.shelf []
       None).1 ≠ Normal ().
Proof.
  assert (bookParamsSchema (params (Sample.byId Sample.idC))
          = ParseSuccess Sample.idC) as Hparams by (vm_compute; reflexivity).
  assert (findDoc (Js.get (params (Sample.byId Sample.idC)) "bookId")
            Sample.shelf = None) as Hfind by (vm_compute; reflexivity).
  split_and!; [exact Hparams | exact Hfind |].
  apply (proj2 (get_bookId_uncaught_iff (Sample.byId Sample.idC) Sample.shelf
                  [] None)).
  split_and!; [by exists Sample.idC | reflexivity | exact Hfind].
Defined.

Lemma store_failure_is_500_witness :
  bookSchema (body Scenario.fullRequest) = ParseSuccess Scenario.goodBookData
  ∧ bookParamsSchema (params Scenario.fullRequest) = ParseSuccess Sample.idA
  ∧ bookUpdateSchema (body Scenario.fullRequest) = ParseSuccess Scenario.fullPatch
  ∧ sent (res (serve booksRoutes_post Scenario.fullRequest Sample.shelf []
                 (Some Scenario.storeDown)).2)
    = [(500, BError false "Error creating book" "connection lost")]
  ∧ sent (res (serve booksRoutes_get Scenario.fullRequest Sample.shelf []
                 (Some Scenario.storeDown)).2)
    = [(500, BError false "Error fetching books" "connection lost")]
  ∧ sent (res (serve booksRoutes_get_bookId Scenario.fullRequest Sample.shelf []
                 (Some Scenario.storeDown)).2)
    = [(500, BError false "Error retrieving book" "connection lost")]
  ∧ sent (res (serve booksRoutes_delete_bookId Scenario.fullRequest Sample.shelf []
                 (Some Scenario.storeDown)).2)
    = [(500, BError false "Error deleting book" "connection lost")]
  ∧ sent (res (serve booksRoutes_put_bookId Scenario.fullRequest Sample.shelf []
                 (Some Scenario.storeDown)).2)
    = [(500, BError false "Error updating book" "connection lost")].
Proof.
  assert (bookSchema (body Scenario.fullRequest)
          = ParseSuccess Scenario.goodBookData) as Hbody
    by (vm_compute; reflexivity).
  assert (bookParamsSchema (params Scenario.fullRequest)
          = ParseSuccess Sample.idA) as Hparams by (vm_compute; reflexivity).
  assert (bookUpdateSchema (body Scenario.fullRequest)
          = ParseSuccess Scenario.fullPatch) as Hpatch
    by (vm_compute; reflexivity).
  destruct (store_failure_is_500 Scenario.fullRequest Scenario.storeDown
              Sample.shelf []) as (Hpost & Hlist & Hid).
  destruct (Hid Sample.idA Hparams) as (Hget & Hdel & Hput).
  split_and!; [exact Hbody | exact Hparams | exact Hpatch | | | | |].
  - exact (proj2 (proj2 (Hpost _ Hbody))).
  - assert (size (query Scenario.fullRequest) = 0) as Hq by reflexivity.
    exact (proj2 (Hlist (or_introl Hq))).
  - exact (proj2 Hget).
  - exact (proj2 (proj2 (proj2 Hdel))).
  - exact (proj2 (proj2 (Hput _ Hpatch))).
Defined.

Lemma put_delete_malformed_id_witness :
  let error := {| errors := [Sample.issue "custom" "bookId" "Invalid book ID"] |} in
  bookParamsSchema (params Scenario.badBoth) = ParseFailure error
  ∧ sent (res (serve booksRoutes_put_bookId Scenario.badBoth Sample.shelf []
                 None).2)
    = [(400, BValidation (formatZodError error (params Scenario.badBoth)))]
  ∧ sent (res (serve booksRoutes_delete_bookId Scenario.badBoth Sample.shelf []
                 None).2)
    = [(400, BValidation (formatZodError error (params Scenario.badBoth)))].
Proof.
  intros error.
  assert (bookParamsSchema (params Scenario.badBoth) = ParseFailure error)
    as Hparams by (vm_compute; reflexivity).
  destruct (put_delete_malformed_id Scenario.badBoth error Sample.shelf []
              None Hparams) as [(_ & Hput & _) (_ & Hdel & _)].
  by split_and!.
Defined.

Lemma put_delete_absent_witness :
  bookParamsSchema (params Scenario.missingBook) = ParseSuccess Sample.idC
  ∧ findDoc (Js.get (params Scenario.missingBook) "bookId") Sample.shelf = None
  ∧ bookUpdateSchema (body Scenario.missingBook) = ParseSuccess Sample.soldOutPatch
  ∧ (serve booksRoutes_put_bookId Scenario.missingBook Sample.shelf [] None).1
    = Throw headersSentError
  ∧ (serve booksRoutes_delete_bookId Scenario.missingBook Sample.shelf [] None).1
    = Throw headersSentError.
Proof.
  assert (bookParamsSchema (params Scenario.missingBook)
          = ParseSuccess Sample.idC) as Hparams by (vm_compute; reflexivity).
  assert (findDoc (Js.get (params Scenario.missingBook) "bookId") Sample.shelf
          = None) as Hfind by (vm_compute; reflexivity).
  assert (bookUpdateSchema (body Scenario.missingBook)
          = ParseSuccess Sample.soldOutPatch) as Hbody
    by (vm_compute; reflexivity).
  destruct (put_delete_absent Scenario.missingBook Sample.idC Sample.shelf []
              Hparams Hfind) as [Hput (Hdel & _)].
  split_and!; [exact Hparams | exact Hfind | exact Hbody | | exact Hdel].
  exact (proj1 (Hput _ Hbody)).
Defined.

Lemma delete_present_witness :
  bookParamsSchema (params (Sample.byId Sample.idA)) = ParseSuccess Sample.idA
  ∧ findDoc (Js.get (params (Sample.byId Sample.idA)) "bookId") Sample.shelf
    = Some Sample.docA
  ∧ NoDup (_id <$> Sample.shelf)
  ∧ sent (res (serve booksRoutes_delete_bookId (Sample.byId Sample.idA)
                 Sample.shelf [] None).2)
    = [(200, BBook true "Book deleted successfully" (Some Sample.docA))]
  ∧ findDoc (Js.get (params (Sample.byId Sample.idA)) "bookId")
      (books (serve booksRoutes_delete_bookId (Sample.byId Sample.idA)
                Sample.shelf [] None).2)
    = None.
Proof.
  assert (bookParamsSchema (params (Sample.byId Sample.idA))
          = ParseSuccess Sample.idA) as Hparams by (vm_compute; reflexivity).
  assert (findDoc (Js.get (params (Sample.byId Sample.idA)) "bookId")
            Sample.shelf = Some Sample.docA) as Hfind
    by (vm_compute; reflexivity).
  assert (NoDup (_id <$> Sample.shelf)) as Hnd
    by decide_goal.
  destruct (delete_present (Sample.byId Sample.idA) Sample.idA Sample.docA
              Sample.shelf [] Hparams Hfind)
    as (_ & Hsent & _ & _ & _ & _ & Hgone).
  split_and!; [exact Hparams | exact Hfind | exact Hnd | exact Hsent |].
  exact (Hgone Hnd).
Defined.

Lemma delete_then_get_is_404_witness :
  NoDup (_id <$> Sample.shelf)
  ∧ bookParamsSchema (params (Sample.byId Sample.idA)) = ParseSuccess Sample.idA
  ∧ findDoc (Js.get (params (Sample.byId Sample.idA)) "bookId") Sample.shelf
    = Some Sample.docA
  ∧ sent (res (serveNext booksRoutes_get_bookId (Sample.byId Sample.idA)
                 (serve booksRoutes_delete_bookId (Sample.byId Sample.idA)
                    Sample.shelf [] None).2).2)
    = [(404, BMessage false "Book not found")].
Proof.
  assert (NoDup (_id <$> Sample.shelf)) as Hnd
    by decide_goal.
  assert (bookParamsSchema (params (Sample.byId Sample.idA))
          = ParseSuccess Sample.idA) as Hparams by (vm_compute; reflexivity).
  assert (findDoc (Js.get (params (Sample.byId Sample.idA)) "bookId")
            Sample.shelf = Some Sample.docA) as Hfind
    by (vm_compute; reflexivity).
  split_and!; [exact Hnd | exact Hparams | exact Hfind |].
  exact (delete_then_get_is_404 (Sample.byId Sample.idA) Sample.idA Sample.docA
           Sample.shelf [] Hnd Hparams Hfind).
Defined.

Lemma connectDB_connected_iff_witness :
  (1 < 2)%nat ∧ Server.failsOnce 1 = None
  ∧ Server.isConnected
      (Server.callConnectDB 2 Server.failsOnce Server.initial) = true.
Proof.
  split_and!; [lia | reflexivity |].
  apply (proj1 (proj2 (connectDB_connected_iff 2 Server.failsOnce))).
  exists 1%nat. split; [lia | reflexivity].
Defined.

Lemma main_listens_iff_connected_witness :
  Server.failsOnce 0 = Some {| Js.error_message := "connection refused" |}
  ∧ Main.listening (Main.main Server.failsOnce "5000" Main.boot).2 = false
  ∧ Main.console (Main.main Server.failsOnce "5000" Main.boot).2
    = ["connection refused"].
Proof.
  split; [reflexivity |].
  exact (proj1 (proj2 (proj2 (proj2 (main_listens_iff_connected
                                       Server.failsOnce "5000"))))
           _ eq_refl).
Defined.

Lemma get_bookId_present_witness :
  bookParamsSchema (params (Sample.byId Sample.idA)) = ParseSuccess Sample.idA
  ∧ findDoc (Js.get (params (Sample.byId Sample.idA)) "bookId") Sample.shelf
    = Some Sample.docA
  ∧ attempts (serve booksRoutes_get_bookId (Sample.byId Sample.idA)
                Sample.shelf [] None).2
    = [(200, BBook true "Book retrieved successfully" (Some Sample.docA))].
Proof.
  assert (bookParamsSchema (params (Sample.byId Sample.idA))
          = ParseSuccess Sample.idA) as Hparams by (vm_compute; reflexivity).
  assert (findDoc (Js.get (params (Sample.byId Sample.idA)) "bookId")
            Sample.shelf = Some Sample.docA) as Hfind
    by (vm_compute; reflexivity).
  split_and!; [exact Hparams | exact Hfind |].
  exact (proj1 (proj2 (get_bookId_present (Sample.byId Sample.idA) Sample.idA
                         Sample.docA Sample.shelf [] Hparams Hfind))).
Defined.

Lemma get_list_default_pagination_witness :
  size (query Sample.emptyRequest) = 0
  ∧ ∃ pg,
      sent (res (serve booksRoutes_get Sample.emptyRequest Sample.shelf []
                   None).2)
      = [(200, BBooks true "Books retrieved successfully"
                 (take 10 Sample.shelf) pg)]
      ∧ totalBooks pg = 3%nat ∧ hasNextPage pg = false.
Proof.
  assert (size (query Sample.emptyRequest) = 0) as Hq by reflexivity.
  split; [exact Hq |].
  destruct (get_list_default_pagination Sample.emptyRequest Sample.shelf []
              Hq) as (pg & Hsent & _ & _ & Htotal & Hpages & Hnext & _).
  exists pg. split_and!; [exact Hsent | exact Htotal |].
  rewrite Hnext, Hpages. reflexivity.
Defined.

